(** * A shallow embedding of the ccache 3.0 lookup engine (src/ccache.c)

    The development follows the C code function by function.  Strings are
    Stdlib [string]s; the file system is a [gmap string string] from path to
    contents; the hash state is the list of items streamed into it (labels of
    [hash_delimiter], strings of [hash_string], buffers of [hash_buffer], ...),
    so two runs feed the same bytes exactly when they produce the same list.
    Collaborators that live outside ccache.c (util.c, hashutil.c, manifest.c,
    execute.c, the kernel) are Section variables: every theorem holds for all
    of their behaviours, and witnesses instantiate them concretely. *)

From stdpp Require Import base gmap strings list.
From Stdlib Require Import String Ascii ZArith.

Open Scope string_scope.

(* ------------------------------------------------------------------ *)
(** ** C library helpers *)

(** [strcmp(a, b) == 0]. *)
Definition streq (a b : string) : bool := String.eqb a b.

(** [strncmp(s, lit, strlen(lit)) == 0]: [s] starts with [lit]. *)
Definition starts_with (lit s : string) : bool := String.prefix lit s.

(** [s + n]: the suffix of [s] after its first [n] characters. *)
Definition str_drop (n : nat) (s : string) : string :=
  String.substring n (String.length s - n) s.

(** [s[i]] on a NUL-terminated string: the terminator at index
    [strlen(s)]; indices past it are outside the object and read as NUL
    here (the C behaviour there is undefined). *)
Definition char_at (s : string) (i : nat) : ascii :=
  match String.get i s with Some c => c | None => "000"%char end.

(** errno values used by the code. *)
Definition ENOENT : Z := 2.

(* ------------------------------------------------------------------ *)
(** ** The streaming hash (hash.c): the sequence of items fed to it *)

Inductive hash_item :=
| HDelimiter (label : string)   (* hash_delimiter(hash, label) *)
| HString (s : string)          (* hash_string(hash, s) *)
| HBuffer (s : string)          (* hash_buffer(hash, p, len) *)
| HInt (n : Z)                  (* hash_int(hash, n) *)
| HFile (path : string).        (* hash_file(hash, path) *)

(* ------------------------------------------------------------------ *)
(** ** calculate_object_hash: the argument loop (ccache.c 980-1026) *)

(** Options whose spaced form is skipped, with the following token, from
    the preprocessor-mode hash (the list at ccache.c 997-1011). *)
Definition cpp_skip_spaced_opts : list string :=
  ["-D"; "-I"; "-U"; "-idirafter"; "-imacros"; "-imultilib"; "-include";
   "-iprefix"; "-iquote"; "-isysroot"; "-isystem"; "-iwithprefix";
   "-iwithprefixbefore"; "-nostdinc"; "-nostdinc++"].

Section ArgumentHash.
(** [stat(path) == 0] and [hash_file(hash, path)] succeeding. *)
Variable file_exists : string -> bool.
Variable hash_file_ok : string -> bool.

(** The loop [for (i = 1; i < args->argc; i++)] over [argv[1..]];
    [None] is a call of [failed()]. *)
Fixpoint hash_args_loop (direct_mode : bool) (args : list string)
  : option (list hash_item) :=
  match args with
  | [] => Some []
  | a :: rest =>
    let has_next := match rest with [] => false | _ => true end in
    let skip_next :=
      match rest with [] => Some [] | _ :: rest' => hash_args_loop direct_mode rest' end in
    if has_next && streq a "-L" then skip_next
    else if starts_with "-L" a then hash_args_loop direct_mode rest
    else if negb direct_mode && has_next
            && existsb (streq a) cpp_skip_spaced_opts then skip_next
    else if negb direct_mode
            && (starts_with "-D" a || starts_with "-I" a || starts_with "-U" a)
    then hash_args_loop direct_mode rest
    else if starts_with "--specs=" a && file_exists (str_drop 8 a) then
      if hash_file_ok (str_drop 8 a)
      then option_map (fun l => HDelimiter "specs" :: HFile (str_drop 8 a) :: l)
                      (hash_args_loop direct_mode rest)
      else None
    else option_map (fun l => HDelimiter "arg" :: HString a :: l)
                    (hash_args_loop direct_mode rest)
  end.

(** [calculate_object_hash] reads [args->argv] from index 1. *)
Definition hash_arguments (direct_mode : bool) (args : list string)
  : option (list hash_item) :=
  hash_args_loop direct_mode (List.tl args).
End ArgumentHash.

(* ------------------------------------------------------------------ *)
(** ** Include files: remember_include_file, make_relative_path,
       process_preprocessed_file (ccache.c 319-528) *)

(** [struct file_hash]: the digest bytes and the byte count. *)
Record file_hash := { fh_hash : string; fh_size : Z }.

(** Bits of [sloppiness] (ccache.h) and of the result of
    [hash_source_code_string] (hashutil.h). *)
Definition SLOPPY_INCLUDE_FILE_MTIME : Z := 1.
Definition SLOPPY_FILE_MACRO : Z := 2.
Definition SLOPPY_TIME_MACROS : Z := 4.
Definition HASH_SOURCE_CODE_ERROR : Z := 1.
Definition HASH_SOURCE_CODE_FOUND_TIME : Z := 2.

(** What [open] + [fstat] (+ [mmap]) tell about a path. *)
Record file_info := {
  st_is_dir : bool;
  st_mtime : Z;
  st_size : Z;
  st_mmap_ok : bool;
  st_data : string
}.

(** The globals that remember_include_file reads and writes. *)
Record inc_state := {
  enable_direct : bool;
  included_files : option (gmap string file_hash)
}.

Definition disable_direct (s : inc_state) : inc_state :=
  {| enable_direct := false; included_files := included_files s |}.

Section IncludeFiles.
(** util.c: [get_relative_path(from, to)]. *)
Variable get_relative_path : string -> string -> string.
Variable current_working_dir : string.
(** [base_dir] ([CCACHE_BASEDIR]), [NULL] when unset. *)
Variable base_dir : option string.
Variable input_file : string.
Variable time_of_compilation : Z.
Variable sloppiness : Z.
(** [open] + [fstat] of an include file; [None] when either fails. *)
Variable stat_include : string -> option file_info.
(** hashutil.c: [hash_source_code_string] on a fresh hash: the result
    bits and the resulting digest and byte count. *)
Variable hash_source_code_string : string -> string -> Z * file_hash.

Definition make_relative_path (path : string) : string :=
  match base_dir with
  | Some b =>
    if starts_with b path then get_relative_path current_working_dir path else path
  | None => path
  end.

(** The test [path_len >= 2 && path[0] == '<' && path[path_len - 1] == '>']. *)
Definition is_bracketed (path : string) (path_len : nat) : bool :=
  (2 <=? path_len)%nat
  && Ascii.eqb (char_at path 0) "<"
  && Ascii.eqb (char_at path (path_len - 1)) ">".

(** The string indices the bracket test reads. *)
Definition bracket_test_reads (path : string) (path_len : nat) : list nat :=
  if (2 <=? path_len)%nat then
    if Ascii.eqb (char_at path 0) "<" then [0%nat; (path_len - 1)%nat] else [0%nat]
  else [].

Definition remember_include_file (path : string) (path_len : nat) (s : inc_state)
  : inc_state :=
  match included_files s with
  | None => s
  | Some m =>
    if is_bracketed path path_len then s
    else if streq path input_file then s
    else match m !! path with
    | Some _ => s
    | None =>
      match stat_include path with
      | None => disable_direct s
      | Some st =>
        if st_is_dir st then s
        else if (Z.land sloppiness SLOPPY_INCLUDE_FILE_MTIME =? 0)%Z
                && (time_of_compilation <=? st_mtime st)%Z then disable_direct s
        else if (0 <? st_size st)%Z && negb (st_mmap_ok st) then disable_direct s
        else
          let source := if (0 <? st_size st)%Z then st_data st else "" in
          let (result, h) := hash_source_code_string source path in
          if negb (Z.land result HASH_SOURCE_CODE_ERROR =? 0)%Z
             || negb (Z.land result HASH_SOURCE_CODE_FOUND_TIME =? 0)%Z
          then disable_direct s
          else {| enable_direct := enable_direct s;
                  included_files := Some (<[path := h]> m) |}
      end
    end
  end.

(** [while (q < end && *q != QUOTE) q++;] where QUOTE is the double-quote
    character (ASCII 34). *)
Fixpoint skip_to_quote (data : string) (q : nat) (fuel : nat) : nat :=
  match fuel with
  | O => q
  | S fuel' =>
    match String.get q data with
    | None => q
    | Some c => if Ascii.eqb c "034"%char then q else skip_to_quote data (S q) fuel'
    end
  end.

Definition is_digit (c : ascii) : bool :=
  (Ascii.nat_of_ascii "0" <=? Ascii.nat_of_ascii c)%nat
  && (Ascii.nat_of_ascii c <=? Ascii.nat_of_ascii "9")%nat.

(** The line-marker test at [q] (ccache.c 487-493). *)
Definition is_line_marker (data : string) (q : nat) : bool :=
  Ascii.eqb (char_at data q) "#"
  && ((Ascii.eqb (char_at data (q + 1)) " " && is_digit (char_at data (q + 2)))
      || (Ascii.eqb (char_at data (q + 1)) "l" && Ascii.eqb (char_at data (q + 2)) "i"
          && Ascii.eqb (char_at data (q + 3)) "n" && Ascii.eqb (char_at data (q + 4)) "e"
          && Ascii.eqb (char_at data (q + 5)) " "))
  && ((q =? 0)%nat || Ascii.eqb (char_at data (q - 1)) "010").

(** util.c: [x_strndup(p, n)] applied to the [n] bytes at [p]: the copy
    stops at the first NUL byte. *)
Fixpoint x_strndup (s : string) : string :=
  match s with
  | EmptyString => EmptyString
  | String c s' => if Ascii.eqb c "000"%char then EmptyString else String c (x_strndup s')
  end.

(** The result of the scan: the hash items fed ([None]: [return 0]), the
    globals afterwards, and the [(path, path_len)] arguments of the calls
    of remember_include_file, in order. *)
Record scan_result := {
  scan_hash : option (list hash_item);
  scan_state : inc_state;
  scan_calls : list (string * nat)
}.

(** The [while (q < end - 7)] loop; [p] and [q] are offsets into [data].
    Every iteration advances [q], so [length data] iterations suffice. *)
Fixpoint pp_loop (fuel : nat) (data : string) (p q : nat) (s : inc_state)
  : scan_result :=
  let size := String.length data in
  let tail := HBuffer (String.substring p (size - p) data) in
  match fuel with
  | O => {| scan_hash := Some [tail]; scan_state := s; scan_calls := [] |}
  | S fuel' =>
    if (q <? size - 7)%nat then
      if is_line_marker data q then
        let q1 := S (skip_to_quote data q size) in
        if (size <=? q1)%nat then
          {| scan_hash := None; scan_state := s; scan_calls := [] |}
        else
          let q2 := skip_to_quote data q1 size in
          let path := make_relative_path (x_strndup (String.substring q1 (q2 - q1) data)) in
          let s' := if enable_direct s
                    then remember_include_file path (q2 - q1) s else s in
          let calls := if enable_direct s then [(path, (q2 - q1)%nat)] else [] in
          let r := pp_loop fuel' data q2 q2 s' in
          {| scan_hash :=
               option_map (fun l => HBuffer (String.substring p (q1 - p) data)
                                    :: HString path :: l) (scan_hash r);
             scan_state := scan_state r;
             scan_calls := calls ++ scan_calls r |}
      else pp_loop fuel' data p (S q) s
    else {| scan_hash := Some [tail]; scan_state := s; scan_calls := [] |}
  end.

(** [process_preprocessed_file] on the mapped contents of the file
    ([None] when open, fstat or mmap fails). *)
Definition process_preprocessed_file (contents : option string) (s : inc_state)
  : scan_result :=
  match contents with
  | None => {| scan_hash := None; scan_state := s; scan_calls := [] |}
  | Some data =>
    let s0 := if enable_direct s
              then {| enable_direct := true; included_files := Some ∅ |} else s in
    pp_loop (S (String.length data)) data 0 0 s0
  end.
End IncludeFiles.

(** Modelled from the spec: util.c's [get_relative_path(from, to)] is not
    part of src/; the spec (4.3, 6: CCACHE_BASEDIR) has paths under the base
    directory "rewritten relative" to the working directory.  This is the
    relative path from directory [from] to [to]: the common leading
    components are dropped, one [..] is written per remaining component of
    [from], then the rest of [to]; [.] when nothing is left.  A [to] that is
    not absolute is returned unchanged. *)
Fixpoint path_components_aux (l : list ascii) (cur : list ascii) : list string :=
  match l with
  | [] => match cur with [] => [] | _ => [string_of_list_ascii (rev cur)] end
  | c :: l' =>
    if Ascii.eqb c "/" then
      match cur with
      | [] => path_components_aux l' []
      | _ => string_of_list_ascii (rev cur) :: path_components_aux l' []
      end
    else path_components_aux l' (c :: cur)
  end.

Definition path_components (s : string) : list string :=
  path_components_aux (list_ascii_of_string s) [].

Fixpoint drop_common (xs ys : list string) : list string * list string :=
  match xs, ys with
  | x :: xs', y :: ys' => if streq x y then drop_common xs' ys' else (xs, ys)
  | _, _ => (xs, ys)
  end.

Definition get_relative_path_spec (from to : string) : string :=
  if negb (starts_with "/" to) then to
  else
    let (fs, ts) := drop_common (path_components from) (path_components to) in
    match String.concat "/" (map (fun _ => "..") fs ++ ts) with
    | "" => "."
    | r => r
    end.

(* ------------------------------------------------------------------ *)
(** ** Languages and extensions (ccache.c 185-231, 534-585) *)

Definition extensions : list (string * string) :=
  [(".c", "c"); (".C", "c++"); (".cc", "c++"); (".CC", "c++"); (".cpp", "c++");
   (".CPP", "c++"); (".cxx", "c++"); (".CXX", "c++"); (".c++", "c++");
   (".C++", "c++"); (".i", "cpp-output"); (".ii", "c++-cpp-output");
   (".mi", "objc-cpp-output"); (".mii", "objc++-cpp-output");
   (".m", "objective-c"); (".M", "objective-c++"); (".mm", "objective-c++")].

Definition languages : list (string * string) :=
  [("c", ".i"); ("cpp-output", ".i"); ("c++", ".ii"); ("c++-cpp-output", ".ii");
   ("objective-c", ".mi"); ("objc-cpp-output", ".mi"); ("objective-c++", ".mii");
   ("objc++-cpp-output", ".mii")].

(** The first entry of a [{key, value}] table whose key is [k]. *)
Fixpoint table_lookup (k : string) (t : list (string * string)) : option string :=
  match t with
  | [] => None
  | (k', v) :: t' => if streq k k' then Some v else table_lookup k t'
  end.

(** Modelled from the spec: util.c's [get_extension] is not part of src/;
    the "source extension" of a path is its suffix from the last [.] of its
    last component, the empty string when that component has no [.]. *)
Definition get_extension (path : string) : string :=
  let fix go (rl acc : list ascii) : string :=
    match rl with
    | [] => ""
    | c :: rl' =>
      if Ascii.eqb c "." then string_of_list_ascii (c :: acc)
      else if Ascii.eqb c "/" then ""
      else go rl' (c :: acc)
    end in
  go (rev (list_ascii_of_string path)) [].

(** Modelled from the spec: util.c's [remove_extension]: the path without
    its [get_extension] suffix. *)
Definition remove_extension (path : string) : string :=
  String.substring 0 (String.length path - String.length (get_extension path)) path.

(** Modelled from the spec: util.c's [basename]: the part after the last
    [/]. *)
Definition basename (path : string) : string :=
  let fix go (rl acc : list ascii) : string :=
    match rl with
    | [] => string_of_list_ascii acc
    | c :: rl' => if Ascii.eqb c "/" then string_of_list_ascii acc else go rl' (c :: acc)
    end in
  go (rev (list_ascii_of_string path)) [].

Definition language_for_file (fname : string) : option string :=
  table_lookup (get_extension fname) extensions.

Definition i_extension_for_language (language : string) : option string :=
  table_lookup language languages.

Definition language_is_supported (language : string) : bool :=
  match i_extension_for_language language with Some _ => true | None => false end.

Definition language_is_preprocessed (language : string) : bool :=
  match i_extension_for_language language with
  | Some i_ext =>
    match language_for_file i_ext with Some l => streq language l | None => false end
  | None => false
  end.

(* ------------------------------------------------------------------ *)
(** ** process_args (ccache.c 1311-1787) *)

(** The locals of [process_args] and the globals it sets. *)
Record pa_state := {
  found_c_opt : bool;
  found_S_opt : bool;
  found_arch_opt : bool;
  explicit_language : option string;
  input_charset : option string;
  dependency_filename_specified : bool;
  dependency_target_specified : bool;
  stripped_args : list string;
  pa_input_file : option string;
  output_obj : option string;
  output_dep : option string;
  generating_dependencies : bool;
  pa_enable_direct : bool;
  enable_unify : bool;
  compile_preprocessed_source_code : bool
}.

Definition set_found_c_opt (st : pa_state) : pa_state :=
  Build_pa_state (true) (found_S_opt st) (found_arch_opt st) (explicit_language st) (input_charset st) (dependency_filename_specified st) (dependency_target_specified st) (stripped_args st) (pa_input_file st) (output_obj st) (output_dep st) (generating_dependencies st) (pa_enable_direct st) (enable_unify st) (compile_preprocessed_source_code st).

Definition set_found_S_opt (st : pa_state) : pa_state :=
  Build_pa_state (found_c_opt st) (true) (found_arch_opt st) (explicit_language st) (input_charset st) (dependency_filename_specified st) (dependency_target_specified st) (stripped_args st) (pa_input_file st) (output_obj st) (output_dep st) (generating_dependencies st) (pa_enable_direct st) (enable_unify st) (compile_preprocessed_source_code st).

Definition set_found_arch_opt (st : pa_state) : pa_state :=
  Build_pa_state (found_c_opt st) (found_S_opt st) (true) (explicit_language st) (input_charset st) (dependency_filename_specified st) (dependency_target_specified st) (stripped_args st) (pa_input_file st) (output_obj st) (output_dep st) (generating_dependencies st) (pa_enable_direct st) (enable_unify st) (compile_preprocessed_source_code st).

Definition set_explicit_language (l : string) (st : pa_state) : pa_state :=
  Build_pa_state (found_c_opt st) (found_S_opt st) (found_arch_opt st) (Some l) (input_charset st) (dependency_filename_specified st) (dependency_target_specified st) (stripped_args st) (pa_input_file st) (output_obj st) (output_dep st) (generating_dependencies st) (pa_enable_direct st) (enable_unify st) (compile_preprocessed_source_code st).

Definition set_input_charset (a : string) (st : pa_state) : pa_state :=
  Build_pa_state (found_c_opt st) (found_S_opt st) (found_arch_opt st) (explicit_language st) (Some a) (dependency_filename_specified st) (dependency_target_specified st) (stripped_args st) (pa_input_file st) (output_obj st) (output_dep st) (generating_dependencies st) (pa_enable_direct st) (enable_unify st) (compile_preprocessed_source_code st).

Definition set_dependency_filename (d : string) (st : pa_state) : pa_state :=
  Build_pa_state (found_c_opt st) (found_S_opt st) (found_arch_opt st) (explicit_language st) (input_charset st) (dependency_filename_specified st) (dependency_target_specified st) (stripped_args st) (pa_input_file st) (output_obj st) (Some d) (generating_dependencies st) (pa_enable_direct st) (enable_unify st) (compile_preprocessed_source_code st).

Definition set_dependency_filename_specified (st : pa_state) : pa_state :=
  Build_pa_state (found_c_opt st) (found_S_opt st) (found_arch_opt st) (explicit_language st) (input_charset st) (true) (dependency_target_specified st) (stripped_args st) (pa_input_file st) (output_obj st) (output_dep st) (generating_dependencies st) (pa_enable_direct st) (enable_unify st) (compile_preprocessed_source_code st).

Definition set_dependency_target_specified (st : pa_state) : pa_state :=
  Build_pa_state (found_c_opt st) (found_S_opt st) (found_arch_opt st) (explicit_language st) (input_charset st) (dependency_filename_specified st) (true) (stripped_args st) (pa_input_file st) (output_obj st) (output_dep st) (generating_dependencies st) (pa_enable_direct st) (enable_unify st) (compile_preprocessed_source_code st).

Definition args_add (a : string) (st : pa_state) : pa_state :=
  Build_pa_state (found_c_opt st) (found_S_opt st) (found_arch_opt st) (explicit_language st) (input_charset st) (dependency_filename_specified st) (dependency_target_specified st) (stripped_args st ++ [a])%list (pa_input_file st) (output_obj st) (output_dep st) (generating_dependencies st) (pa_enable_direct st) (enable_unify st) (compile_preprocessed_source_code st).

Definition set_input_file (f : string) (st : pa_state) : pa_state :=
  Build_pa_state (found_c_opt st) (found_S_opt st) (found_arch_opt st) (explicit_language st) (input_charset st) (dependency_filename_specified st) (dependency_target_specified st) (stripped_args st) (Some f) (output_obj st) (output_dep st) (generating_dependencies st) (pa_enable_direct st) (enable_unify st) (compile_preprocessed_source_code st).

Definition set_output_obj (o : string) (st : pa_state) : pa_state :=
  Build_pa_state (found_c_opt st) (found_S_opt st) (found_arch_opt st) (explicit_language st) (input_charset st) (dependency_filename_specified st) (dependency_target_specified st) (stripped_args st) (pa_input_file st) (Some o) (output_dep st) (generating_dependencies st) (pa_enable_direct st) (enable_unify st) (compile_preprocessed_source_code st).

Definition set_generating_dependencies (st : pa_state) : pa_state :=
  Build_pa_state (found_c_opt st) (found_S_opt st) (found_arch_opt st) (explicit_language st) (input_charset st) (dependency_filename_specified st) (dependency_target_specified st) (stripped_args st) (pa_input_file st) (output_obj st) (output_dep st) (true) (pa_enable_direct st) (enable_unify st) (compile_preprocessed_source_code st).

Definition clear_enable_direct (st : pa_state) : pa_state :=
  Build_pa_state (found_c_opt st) (found_S_opt st) (found_arch_opt st) (explicit_language st) (input_charset st) (dependency_filename_specified st) (dependency_target_specified st) (stripped_args st) (pa_input_file st) (output_obj st) (output_dep st) (generating_dependencies st) (false) (enable_unify st) (compile_preprocessed_source_code st).

Definition clear_enable_unify (st : pa_state) : pa_state :=
  Build_pa_state (found_c_opt st) (found_S_opt st) (found_arch_opt st) (explicit_language st) (input_charset st) (dependency_filename_specified st) (dependency_target_specified st) (stripped_args st) (pa_input_file st) (output_obj st) (output_dep st) (generating_dependencies st) (pa_enable_direct st) (false) (compile_preprocessed_source_code st).

Definition clear_compile_preprocessed_source_code (st : pa_state) : pa_state :=
  Build_pa_state (found_c_opt st) (found_S_opt st) (found_arch_opt st) (explicit_language st) (input_charset st) (dependency_filename_specified st) (dependency_target_specified st) (stripped_args st) (pa_input_file st) (output_obj st) (output_dep st) (generating_dependencies st) (pa_enable_direct st) (enable_unify st) (false).

Definition has_char (c : ascii) (s : string) : bool :=
  existsb (Ascii.eqb c) (list_ascii_of_string s).

Definition mem (a : string) (l : list string) : bool := existsb (streq a) l.

Definition too_hard_opts : list string :=
  ["--coverage"; "-M"; "-MM"; "-fbranch-probabilities"; "-fprofile-arcs";
   "-fprofile-generate"; "-fprofile-use"; "-ftest-coverage"; "-save-temps"].

(** Options whose argument is rewritten relative to the base directory. *)
Definition path_opts : list string :=
  ["-I"; "-idirafter"; "-imacros"; "-include"; "-iprefix"; "-isystem"].

(** Other options that take an argument. *)
Definition arg_opts : list string :=
  ["--param"; "-A"; "-D"; "-G"; "-L"; "-MF"; "-MQ"; "-MT"; "-U"; "-V";
   "-Xassembler"; "-Xlinker"; "-aux-info"; "-b"; "-iwithprefix";
   "-iwithprefixbefore"; "-u"].

(** How the loop goes on after [argv[i]]: [failed()], [continue], or
    [i++; continue] (the next token was consumed). *)
Inductive pa_step :=
| StepFailed
| StepNext (st : pa_state)
| StepSkipNext (st : pa_state).

Inductive pa_outcome :=
| PAGaveUp                  (* failed() *)
| PACrashed                 (* args_add(args, NULL) *)
| PAClassified (preprocessor_args compiler_args : list string)
               (input_file output_obj actual_language i_extension : string)
               (st : pa_state).

Section ProcessArgs.
Variable get_relative_path : string -> string -> string.
Variable current_working_dir : string.
Variable base_dir : option string.
(** [stat(path)]: [None] when it fails, otherwise [S_ISREG]. *)
Variable stat_path : string -> option bool.
(** [getenv("CCACHE_EXTENSION")]. *)
Variable env_extension : option string.

Local Abbreviation mrp := (make_relative_path get_relative_path current_working_dir base_dir).

(** One iteration of the loop, on [argv[i] = a] with [argv[i+1] = next]. *)
Definition process_arg (argv0 : string) (i : nat) (a : string) (next : option string)
    (st : pa_state) : pa_step :=
  if streq a "-E" then StepFailed
  else if starts_with "@" a || mem a too_hard_opts then StepFailed
  else
  let st := if pa_enable_direct st && streq a "-Xpreprocessor"
            then clear_enable_direct st else st in
  if streq a "-arch" && found_arch_opt st then StepFailed else
  let st := if streq a "-arch" then set_found_arch_opt st else st in
  if streq a "-c" then StepNext (set_found_c_opt (args_add a st))
  else if streq a "-S" then StepNext (set_found_S_opt (args_add a st))
  else if streq a "-x" then
    match next with
    | None => StepFailed
    | Some n =>
      StepSkipNext (match pa_input_file st with
                    | None => set_explicit_language n st
                    | Some _ => st end)
    end
  else if starts_with "-x" a then
    StepNext (match pa_input_file st with
              | None => set_explicit_language (str_drop 2 a) st
              | Some _ => st end)
  else if streq a "-o" then
    match next with
    | None => StepFailed
    | Some n => StepSkipNext (set_output_obj n st)
    end
  else if starts_with "-o" a then StepNext (set_output_obj (str_drop 2 a) st)
  else if starts_with "-g" a then
    let st := args_add a st in
    let st := if enable_unify st && negb (streq a "-g0") then clear_enable_unify st else st in
    StepNext (if streq a "-g3" then clear_compile_preprocessed_source_code st else st)
  else if streq a "--ccache-skip" then
    match next with
    | None => StepFailed
    | Some n => StepSkipNext (args_add n st)
    end
  else
  let st := if streq a "-MD" || streq a "-MMD" then set_generating_dependencies st else st in
  let st := match next with
            | Some n =>
              if streq a "-MF" then
                set_dependency_filename (mrp n) (set_dependency_filename_specified st)
              else if streq a "-MQ" || streq a "-MT" then set_dependency_target_specified st
              else st
            | None => st
            end in
  let st := if starts_with "-Wp," a then
              if starts_with "-Wp,-MD," a && negb (has_char "," (str_drop 8 a)) then
                set_dependency_filename (mrp (str_drop 8 a))
                  (set_dependency_filename_specified (set_generating_dependencies st))
              else if starts_with "-Wp,-MMD," a && negb (has_char "," (str_drop 9 a)) then
                set_dependency_filename (mrp (str_drop 9 a))
                  (set_dependency_filename_specified (set_generating_dependencies st))
              else if pa_enable_direct st then clear_enable_direct st
              else st
            else st in
  if starts_with "-finput-charset=" a then StepNext (set_input_charset a st)
  else if mem a path_opts then
    match next with
    | None => StepFailed
    | Some n => StepSkipNext (args_add (mrp n) (args_add a st))
    end
  else if starts_with "-I" a then StepNext (args_add ("-I" ++ mrp (str_drop 2 a)) st)
  else if mem a arg_opts then
    match next with
    | None => StepFailed
    | Some n => StepSkipNext (args_add n (args_add a st))
    end
  else if starts_with "-" a then StepNext (args_add a st)
  else if negb (match stat_path a with Some true => true | _ => false end)
  then StepNext (args_add a st)
  else if (i =? 1)%nat && streq (basename argv0) "distcc"
          && negb (match language_for_file a with Some _ => true | None => false end)
  then StepNext (args_add a st)
  else match pa_input_file st with
       | Some _ => StepFailed
       | None => StepNext (set_input_file (mrp a) st)
       end.

(** [for (i = 1; i < argc; i++)]; [None] is a call of [failed()]. *)
Fixpoint pa_loop (argv0 : string) (i : nat) (args : list string) (st : pa_state)
  : option pa_state :=
  match args with
  | [] => Some st
  | a :: rest =>
    match process_arg argv0 i a (head rest) st with
    | StepFailed => None
    | StepNext st' => pa_loop argv0 (S i) rest st'
    | StepSkipNext st' =>
      match rest with
      | [] => Some st'   (* not reached: StepSkipNext needs argv[i+1] *)
      | _ :: rest' => pa_loop argv0 (S (S i)) rest' st'
      end
    end
  end.

(** The object name derived from the input file (ccache.c 1716-1728):
    after the last [/], the last [.] must be followed by a character,
    which is replaced by [o] ([s] with [-S]) and the string cut there. *)
Definition derive_output_obj (input : string) (found_S : bool) : option string :=
  let b := basename input in
  let ext := get_extension b in
  if (String.length ext <? 2)%nat then None
  else Some (remove_extension b ++ "." ++ (if found_S then "s" else "o")).

Definition process_args (argv0 : string) (args : list string)
    (enable_direct0 enable_unify0 cpsc0 : bool) : pa_outcome :=
  let st0 := Build_pa_state false false false None None false false [argv0]
               None None None false enable_direct0 enable_unify0 cpsc0 in
  match pa_loop argv0 1 args st0 with
  | None => PAGaveUp
  | Some st =>
    match pa_input_file st with
    | None => PAGaveUp
    | Some input =>
      let explicit := match explicit_language st with
                      | Some l => if streq l "none" then None else Some l
                      | None => None end in
      let file_language := language_for_file input in
      let actual := match explicit with
                    | Some l => if language_is_supported l then Some l else None
                    | None => file_language end in
      match actual with
      | None => PAGaveUp
      | Some actual_language =>
        let i_ext := match env_extension with
                     | Some e => e
                     | None => match i_extension_for_language actual_language with
                               | Some e => str_drop 1 e | None => "" end
                     end in
        if negb (found_c_opt st) then PAGaveUp
        else if match output_obj st with Some o => streq o "-" | None => false end
        then PAGaveUp
        else
        match (match output_obj st with
               | Some o => Some o
               | None => derive_output_obj input (found_S_opt st) end) with
        | None => PAGaveUp
        | Some out =>
          let st := set_output_obj out st in
          let st :=
            if generating_dependencies st then
              let st :=
                if dependency_filename_specified st then st
                else let dep := remove_extension out ++ ".d" in
                     set_dependency_filename (mrp dep) (args_add dep (args_add "-MF" st)) in
              if dependency_target_specified st then st
              else args_add out (args_add "-MT" st)
            else st in
          if negb (streq out "/dev/null") && (match stat_path out with Some false => true | _ => false end)
          then PAGaveUp
          else
          let pp := (stripped_args st
                     ++ (match input_charset st with Some c => [c] | None => [] end)
                     ++ (match explicit with Some l => ["-x"; l] | None => [] end))%list in
          if compile_preprocessed_source_code st then
            match explicit with
            | Some _ =>
              match language_for_file ("." ++ i_ext) with
              | Some l' => PAClassified pp (stripped_args st ++ ["-x"; l'])%list
                             input out actual_language i_ext st
              | None => PACrashed
              end
            | None => PAClassified pp (stripped_args st) input out actual_language i_ext st
            end
          else PAClassified pp pp input out actual_language i_ext st
        end
      end
    end
  end.
End ProcessArgs.

(* ------------------------------------------------------------------ *)
(** ** The run: effects, halting points and a state monad *)

(** Observable effects, in the order the run performs them. *)
Inductive event :=
| EUnlink (path : string)                  (* unlink(path) *)
| EUpdateMtime (path : string)             (* update_mtime(path) *)
| EStats (counter : string)                (* stats_update(...) *)
| EWriteStderr (contents : string)         (* copy_fd(fd, 2) *)
| ERunCompiler (argv : list string)        (* execute(argv, ...) *)
| EManifestPut (manifest_path : string) (object_hash : file_hash)
               (included : gmap string file_hash).  (* manifest_put(...) *)

(** How a run ends: [exit(status)], or [failed()], which execs the real
    compiler with the original arguments (the fallback executor). *)
Inductive halt := HExit (status : Z) | HFailed.

(** The state a run of ccache reads and writes: the file system (path to
    contents), the observable effects so far, and the globals of ccache.c
    the driver uses. *)
Record world := {
  w_fs : gmap string string;
  w_trace : list event;
  w_enable_direct : bool;
  w_included_files : option (gmap string file_hash);
  w_i_tmpfile : option string;
  w_cpp_stderr : option string;
  w_cached_obj_hash : file_hash;
  w_cached_obj : string;
  w_cached_stderr : string;
  w_cached_dep : string;
  w_manifest_path : string;
  w_stats_file : string
}.

Definition set_fs (fs : gmap string string) (w : world) : world :=
  Build_world (fs) (w_trace w) (w_enable_direct w) (w_included_files w) (w_i_tmpfile w) (w_cpp_stderr w) (w_cached_obj_hash w) (w_cached_obj w) (w_cached_stderr w) (w_cached_dep w) (w_manifest_path w) (w_stats_file w).

Definition add_event (e : event) (w : world) : world :=
  Build_world (w_fs w) (w_trace w ++ [e])%list (w_enable_direct w) (w_included_files w) (w_i_tmpfile w) (w_cpp_stderr w) (w_cached_obj_hash w) (w_cached_obj w) (w_cached_stderr w) (w_cached_dep w) (w_manifest_path w) (w_stats_file w).

Definition set_i_tmpfile (t : option string) (w : world) : world :=
  Build_world (w_fs w) (w_trace w) (w_enable_direct w) (w_included_files w) (t) (w_cpp_stderr w) (w_cached_obj_hash w) (w_cached_obj w) (w_cached_stderr w) (w_cached_dep w) (w_manifest_path w) (w_stats_file w).

Definition set_cpp_stderr (c : option string) (w : world) : world :=
  Build_world (w_fs w) (w_trace w) (w_enable_direct w) (w_included_files w) (w_i_tmpfile w) (c) (w_cached_obj_hash w) (w_cached_obj w) (w_cached_stderr w) (w_cached_dep w) (w_manifest_path w) (w_stats_file w).

Definition set_cached_result (h : file_hash) (o s d : string) (w : world) : world :=
  Build_world (w_fs w) (w_trace w) (w_enable_direct w) (w_included_files w) (w_i_tmpfile w) (w_cpp_stderr w) (h) (o) (s) (d) (w_manifest_path w) (w_stats_file w).

Definition set_stats_file (f : string) (w : world) : world :=
  Build_world (w_fs w) (w_trace w) (w_enable_direct w) (w_included_files w) (w_i_tmpfile w) (w_cpp_stderr w) (w_cached_obj_hash w) (w_cached_obj w) (w_cached_stderr w) (w_cached_dep w) (w_manifest_path w) (f).

Inductive outcome (A : Type) := Ret (a : A) | Halt (h : halt).
Arguments Ret {A} a.
Arguments Halt {A} h.

Definition M (A : Type) : Type := world -> outcome A * world.

Definition mret {A} (a : A) : M A := fun w => (Ret a, w).
Definition mbind {A B} (m : M A) (k : A -> M B) : M B :=
  fun w => match m w with
           | (Ret a, w') => k a w'
           | (Halt h, w') => (Halt h, w')
           end.

Declare Scope ccache_monad_scope.
Notation "x <- m ;; k" := (mbind m (fun x => k))
  (at level 100, m at next level, right associativity) : ccache_monad_scope.
Notation "m ;; k" := (mbind m (fun _ => k))
  (at level 100, right associativity) : ccache_monad_scope.
Open Scope ccache_monad_scope.

Definition skip : M unit := mret tt.
Definition halt_with {A} (h : halt) : M A := fun w => (Halt h, w).
Definition gets {A} (f : world -> A) : M A := fun w => (Ret (f w), w).
Definition modify (f : world -> world) : M unit := fun w => (Ret tt, f w).
Definition emit (e : event) : M unit := modify (add_event e).
Definition unlink (p : string) : M unit :=
  modify (fun w => add_event (EUnlink p) (set_fs (delete p (w_fs w)) w)).
(** [open] + [read] of a whole file; [None] when it does not exist. *)
Definition read_file (p : string) : M (option string) := gets (fun w => w_fs w !! p).
Definition file_exists (p : string) : M bool :=
  gets (fun w => match w_fs w !! p with Some _ => true | None => false end).
Definition write_file (p c : string) : M unit :=
  modify (fun w => set_fs (<[p := c]> (w_fs w)) w).
Definition stats_update (counter : string) : M unit := emit (EStats counter).

Inductive fromcache_call_mode :=
| FROMCACHE_DIRECT_MODE
| FROMCACHE_CPP_MODE
| FROMCACHE_COMPILED_MODE.

Definition is_direct_mode (m : fromcache_call_mode) : bool :=
  match m with FROMCACHE_DIRECT_MODE => true | _ => false end.
Definition is_compiled_mode (m : fromcache_call_mode) : bool :=
  match m with FROMCACHE_COMPILED_MODE => true | _ => false end.

(** The globals fixed by [process_args] and the environment before the
    driver runs. *)
Record config := {
  cfg_output_obj : string;
  cfg_output_dep : string;
  cfg_input_file : string;
  cfg_generating_dependencies : bool;
  cfg_direct_i_file : bool;
  cfg_enable_compression : bool;
  cfg_compile_preprocessed_source_code : bool;
  cfg_cache_dir : string;
  cfg_nlevels : nat;
  cfg_env_recache : bool;     (* getenv("CCACHE_RECACHE") *)
  cfg_env_hardlink : bool;    (* getenv("CCACHE_HARDLINK") *)
  cfg_env_readonly : bool;    (* getenv("CCACHE_READONLY") *)
  (** [CCACHE_PREFIX] is set but [find_executable] does not find it. *)
  cfg_prefix_not_found : bool;
  cfg_tmp_string : string     (* tmp_string() *)
}.

(** Collaborators outside ccache.c. *)
Record oracles := {
  (** errno of [link] (first argument [true]) or [copy_file] when they
      fail on an existing source (for instance after a concurrent
      cleanup, [ENOENT]). *)
  os_xfer_error : bool -> string -> string -> option Z;
  (** errno of [move_file] / [move_uncompressed_file] when they fail. *)
  os_move_error : string -> string -> option Z;
  os_is_compressed : string -> bool;        (* test_if_compressed *)
  os_create_dir_ok : string -> bool;        (* create_dir(path) == 0 *)
  os_create_ok : string -> bool;            (* open(path, O_CREAT...) != -1 *)
  (** execute(argv, stdout, stderr): exit status, stdout, stderr and the
      object file written to the [-o] path, if any. *)
  os_execute : list string -> Z * string * string * option string;
  os_format_hash_as_string : file_hash -> string;
  os_file_hashes_equal : file_hash -> file_hash -> bool;
  os_manifest_put : string -> file_hash -> gmap string file_hash -> bool
}.

(** How [failed()] ends: exec of the real compiler, or [exit(1)] when the
    [CCACHE_PREFIX] executable cannot be found. *)
Definition fallback_halt (cfg : config) : halt :=
  if cfg_prefix_not_found cfg then HExit 1 else HFailed.

Section Driver.
Variable cfg : config.
Variable os : oracles.
(** [calculate_object_hash(preprocessor_args, &direct_hash, 1)] and
    [calculate_object_hash(preprocessor_args, &cpp_hash, 0)]. *)
Variable calc_direct : M (option file_hash).
Variable calc_cpp : M (option file_hash).
(** The arguments for the real compiler ([compiler_args]), with the
    [CCACHE_PREFIX] executable in front when that is set. *)
Variable compiler_args : list string.

(** Deletion of the intermediate preprocessor output and cpp stderr. *)
Definition cleanup_intermediates : M unit :=
  t <- gets w_i_tmpfile ;;
  (match t with
   | Some p => (if cfg_direct_i_file cfg then skip else unlink p) ;; modify (set_i_tmpfile None)
   | None => skip
   end) ;;
  c <- gets w_cpp_stderr ;;
  match c with
  | Some p => unlink p ;; modify (set_cpp_stderr None)
  | None => skip
  end.
(** [failed()]: delete the intermediate files and exec the real
    compiler. *)
Definition failed {A} : M A :=
  cleanup_intermediates ;; halt_with (fallback_halt cfg).

(** Modelled from the spec: util.c's [fatal] ("Fatal: diagnostic +
    nonzero exit"); it exits with status 1. *)
Definition fatal {A} : M A := halt_with (HExit 1).

Fixpoint make_cache_levels (name : string) (i n : nat) (path : string) : M string :=
  match n with
  | O => mret path
  | S n' =>
    let p := path ++ "/" ++ String (char_at name i) "" in
    if os_create_dir_ok os p then make_cache_levels name (S i) n' p else failed
  end.

Definition get_path_in_cache (name suffix : string) : M string :=
  path <- make_cache_levels name 0 (cfg_nlevels cfg) (cfg_cache_dir cfg) ;;
  mret (path ++ "/" ++ str_drop (cfg_nlevels cfg) name ++ suffix).

Definition update_cached_result_globals (h : file_hash) : M unit :=
  let object_name := os_format_hash_as_string os h in
  o <- get_path_in_cache object_name ".o" ;;
  s <- get_path_in_cache object_name ".stderr" ;;
  d <- get_path_in_cache object_name ".d" ;;
  modify (set_cached_result h o s d) ;;
  modify (set_stats_file (cfg_cache_dir cfg ++ "/" ++ String (char_at object_name 0) "" ++ "/stats")).

(** [copy_file(src, dst, compress)]: [None] on success, else errno. *)
Definition copy_file (src dst : string) : M (option Z) :=
  c <- read_file src ;;
  match c with
  | None => mret (Some ENOENT)
  | Some data =>
    match os_xfer_error os false src dst with
    | Some e => mret (Some e)
    | None => write_file dst data ;; mret None
    end
  end.

(** [link(src, dst)] when [CCACHE_HARDLINK] is set and [src] is not
    compressed, otherwise [copy_file(src, dst, 0)]. *)
Definition copy_or_link (src dst : string) : M (option Z) :=
  let hard := cfg_env_hardlink cfg && negb (os_is_compressed os src) in
  c <- read_file src ;;
  match c with
  | None => mret (Some ENOENT)
  | Some data =>
    match os_xfer_error os hard src dst with
    | Some e => mret (Some e)
    | None => write_file dst data ;; mret None
    end
  end.

(** [move_file(src, dst, compress)]: rename into place. *)
Definition move_file (src dst : string) : M (option Z) :=
  c <- read_file src ;;
  match c with
  | None => mret (Some ENOENT)
  | Some data =>
    match os_move_error os src dst with
    | Some e => mret (Some e)
    | None => modify (fun w => set_fs (<[dst := data]> (delete src (w_fs w))) w) ;; mret None
    end
  end.

(** [from_cache(mode, put_object_in_manifest)]: [Ret tt] is a return to
    the caller (a miss). *)
Definition from_cache (mode : fromcache_call_mode) (put_object_in_manifest : bool)
  : M unit :=
  let output_obj := cfg_output_obj cfg in
  let output_dep := cfg_output_dep cfg in
  if negb (is_compiled_mode mode) && cfg_env_recache cfg then skip else
  cached_obj <- gets w_cached_obj ;;
  cached_stderr <- gets w_cached_stderr ;;
  cached_dep <- gets w_cached_dep ;;
  obj_there <- file_exists cached_obj ;;
  if negb obj_there then skip else
  let produce_dep_file := cfg_generating_dependencies cfg && is_direct_mode mode in
  dep_there <- (if produce_dep_file then file_exists cached_dep else mret true) ;;
  if negb dep_there then skip else
  ret <- (if streq output_obj "/dev/null" then mret None
          else unlink output_obj ;; copy_or_link cached_obj output_obj) ;;
  match ret with
  | Some e =>
    (if (e =? ENOENT)%Z then stats_update "missing"
     else stats_update "error" ;; failed) ;;
    unlink output_obj ;;
    unlink cached_stderr ;;
    unlink cached_obj ;;
    unlink cached_dep
  | None =>
  ret <- (if produce_dep_file
          then unlink output_dep ;; copy_or_link cached_dep output_dep
          else mret None) ;;
  match ret with
  | Some e =>
    (if (e =? ENOENT)%Z then stats_update "missing"
     else stats_update "error" ;; failed) ;;
    unlink output_obj ;;
    unlink output_dep ;;
    unlink cached_stderr ;;
    unlink cached_obj ;;
    unlink cached_dep
  | None =>
  emit (EUpdateMtime cached_obj) ;;
  emit (EUpdateMtime cached_stderr) ;;
  (if produce_dep_file then emit (EUpdateMtime cached_dep) else skip) ;;
  (if cfg_generating_dependencies cfg && negb (is_direct_mode mode) then
     r <- copy_file output_dep cached_dep ;;
     match r with None => stats_update "stored dependency file" | Some _ => skip end
   else skip) ;;
  cleanup_intermediates ;;
  err <- read_file cached_stderr ;;
  (match err with Some data => emit (EWriteStderr data) | None => skip end) ;;
  ed <- gets w_enable_direct ;;
  inc <- gets w_included_files ;;
  h <- gets w_cached_obj_hash ;;
  mp <- gets w_manifest_path ;;
  (match inc with
   | Some files =>
     if ed && put_object_in_manifest && negb (cfg_env_readonly cfg) then
       emit (EManifestPut mp h files) ;;
       (if os_manifest_put os mp h files
        then emit (EUpdateMtime mp) ;; stats_update "manifest size"
        else skip)
     else skip
   | None => skip
   end) ;;
  (match mode with
   | FROMCACHE_DIRECT_MODE => stats_update "direct cache hit"
   | FROMCACHE_CPP_MODE => stats_update "preprocessed cache hit"
   | FROMCACHE_COMPILED_MODE => skip
   end) ;;
  halt_with (HExit 0)
  end
  end.

(** The argument vector of the real compiler in [to_cache]: [args], then
    [-o] with the temporary object path, then the preprocessed file or the
    input file. *)
Definition compile_argv (args : list string) (cached_obj : string)
    (i_tmp : option string) : list string :=
  let tmp_obj := cached_obj ++ ".tmp." ++ cfg_tmp_string cfg in
  let input := if cfg_compile_preprocessed_source_code cfg
               then match i_tmp with Some p => p | None => "" end
               else cfg_input_file cfg in
  (args ++ ["-o"; tmp_obj; input])%list.

(** [to_cache(args)]: run the real compiler and store the result. *)
Definition to_cache (args : list string) : M unit :=
  cached_obj <- gets w_cached_obj ;;
  cached_stderr <- gets w_cached_stderr ;;
  let tmp_stdout := cached_obj ++ ".tmp.stdout." ++ cfg_tmp_string cfg in
  let tmp_stderr := cached_obj ++ ".tmp.stderr." ++ cfg_tmp_string cfg in
  let tmp_obj := cached_obj ++ ".tmp." ++ cfg_tmp_string cfg in
  i_tmp <- gets w_i_tmpfile ;;
  let argv := compile_argv args cached_obj i_tmp in
  let '(status, out, err, obj) := os_execute os argv in
  emit (ERunCompiler argv) ;;
  write_file tmp_stdout out ;;
  write_file tmp_stderr err ;;
  (match obj with Some o => write_file tmp_obj o | None => skip end) ;;
  so <- read_file tmp_stdout ;;
  if match so with Some "" => false | _ => true end then
    stats_update "compiler produced stdout" ;;
    unlink tmp_stdout ;; unlink tmp_stderr ;; unlink tmp_obj ;; failed
  else
  unlink tmp_stdout ;;
  cpp <- gets w_cpp_stderr ;;
  (match cpp with
   | Some cpp_path =>
     c1 <- read_file cpp_path ;;
     match c1 with
     | None => failed
     | Some cpp_data =>
       c2 <- read_file tmp_stderr ;;
       match c2 with
       | None => failed
       | Some real_data =>
         unlink tmp_stderr ;;
         if negb (os_create_ok os tmp_stderr) then failed else
         write_file tmp_stderr (cpp_data ++ real_data) ;;
         unlink cpp_path ;;
         modify (set_cpp_stderr None)
       end
     end
   | None => skip
   end) ;;
  if negb (status =? 0)%Z then
    stats_update "compile failed" ;;
    fd <- read_file tmp_stderr ;;
    match fd with
    | Some data =>
      quick <- (if streq (cfg_output_obj cfg) "/dev/null" then mret true
                else there <- file_exists tmp_obj ;;
                     if there then
                       r <- move_file tmp_obj (cfg_output_obj cfg) ;;
                       match r with None => mret true | Some e => mret (e =? ENOENT)%Z end
                     else mret true (* access() fails with ENOENT *)) ;;
      if quick then
        emit (EWriteStderr data) ;;
        unlink tmp_stderr ;;
        (match i_tmp with
         | Some p => if cfg_direct_i_file cfg then skip else unlink p
         | None => skip end) ;;
        halt_with (HExit status)
      else unlink tmp_stderr ;; unlink tmp_obj ;; failed
    | None => unlink tmp_stderr ;; unlink tmp_obj ;; failed
    end
  else
  o <- read_file tmp_obj ;;
  match o with
  | None => stats_update "no output" ;; failed
  | Some "" => stats_update "empty output" ;; failed
  | Some _ =>
    e <- read_file tmp_stderr ;;
    match e with
    | None => stats_update "error" ;; failed
    | Some err_data =>
      (if negb (String.eqb err_data "") then
         r <- move_file tmp_stderr cached_stderr ;;
         match r with Some _ => stats_update "error" ;; failed | None => skip end
       else unlink tmp_stderr) ;;
      r <- move_file tmp_obj cached_obj ;;
      match r with
      | Some _ => stats_update "error" ;; failed
      | None => stats_update "to cache"
      end
    end
  end.

(** The part of [ccache()] that follows the common hash
    (ccache.c 1891-1980). *)
Definition ccache_compile (put_object_in_manifest : bool) : M unit :=
  if cfg_env_readonly cfg then failed else
  if cfg_prefix_not_found cfg then halt_with (HExit 1) else
  to_cache compiler_args ;;
  from_cache FROMCACHE_COMPILED_MODE put_object_in_manifest ;;
  stats_update "error" ;;
  failed.

Definition ccache_lookup : M unit :=
  ed <- gets w_enable_direct ;;
  r <- (if ed then
          oh <- calc_direct ;;
          match oh with
          | Some h =>
            update_cached_result_globals h ;;
            from_cache FROMCACHE_DIRECT_MODE false ;;
            mret (false, Some h)
          | None => mret (true, None)
          end
        else mret (false, None)) ;;
  let '(put_object_in_manifest, object_hash_from_manifest) := r in
  oh <- calc_cpp ;;
  match oh with
  | None => fatal
  | Some object_hash =>
    update_cached_result_globals object_hash ;;
    put <- (match object_hash_from_manifest with
            | Some hm =>
              if negb (os_file_hashes_equal os hm object_hash) then
                mp <- gets w_manifest_path ;;
                unlink mp ;;
                mret true
              else mret put_object_in_manifest
            | None => mret put_object_in_manifest
            end) ;;
    from_cache FROMCACHE_CPP_MODE put ;;
    ccache_compile put
  end.
End Driver.

(** Options of [cpp_skip_spaced_opts] that take an argument. *)
Definition cpp_skip_opts_with_arg : list string :=
  ["-D"; "-I"; "-U"; "-idirafter"; "-imacros"; "-imultilib"; "-include";
   "-iprefix"; "-iquote"; "-isysroot"; "-isystem"; "-iwithprefix";
   "-iwithprefixbefore"].

(** The options of that list whose joined form the loop does not know. *)
Definition cpp_joined_unknown_opts : list string :=
  ["-idirafter"; "-imacros"; "-imultilib"; "-include"; "-iprefix"; "-iquote";
   "-isysroot"; "-isystem"; "-iwithprefix"; "-iwithprefixbefore"].

Definition no_file (_ : string) : bool := false.

(* ================================================================== *)
(** A concrete include context: the file system knows a directory [/src]
    that was modified after the compilation started and a header
    [/src/a.h], equally recent. *)
Definition c2_stat (p : string) : option file_info :=
  if streq p "/src" then
    Some {| st_is_dir := true; st_mtime := 200; st_size := 4096;
            st_mmap_ok := true; st_data := "" |}
  else if streq p "/src/a.h" then
    Some {| st_is_dir := false; st_mtime := 200; st_size := 0;
            st_mmap_ok := true; st_data := "" |}
  else None.

Definition c2_hash (source path : string) : Z * file_hash :=
  (0%Z, {| fh_hash := path; fh_size := 0 |}).

(** ** A concrete configuration, used to run the driver on examples. *)

Definition cfg0 : config := {|
  cfg_output_obj := "foo.o"; cfg_output_dep := "foo.d"; cfg_input_file := "foo.c";
  cfg_generating_dependencies := false; cfg_direct_i_file := false;
  cfg_enable_compression := false; cfg_compile_preprocessed_source_code := true;
  cfg_cache_dir := "/cache"; cfg_nlevels := 0%nat;
  cfg_env_recache := false; cfg_env_hardlink := false; cfg_env_readonly := false;
  cfg_prefix_not_found := false; cfg_tmp_string := "t" |}.

(** Every file operation succeeds; the compiler exits with [status] and
    prints [out] and [err]. *)
Definition os0 (status : Z) (out err : string) : oracles := {|
  os_xfer_error := fun _ _ _ => None;
  os_move_error := fun _ _ => None;
  os_is_compressed := fun _ => false;
  os_create_dir_ok := fun _ => true;
  os_create_ok := fun _ => true;
  os_execute := fun _ => (status, out, err, Some "OBJ");
  os_format_hash_as_string := fh_hash;
  os_file_hashes_equal := fun a b => String.eqb (fh_hash a) (fh_hash b)
                                    && Z.eqb (fh_size a) (fh_size b);
  os_manifest_put := fun _ _ _ => true |}.

Definition hash_a : file_hash := {| fh_hash := "aaaa"; fh_size := 1 |}.
Definition hash_b : file_hash := {| fh_hash := "bbbb"; fh_size := 1 |}.

(** A world with the given files, direct mode on and the given
    [included_files]. *)
Definition world0 (fs : gmap string string)
    (inc : option (gmap string file_hash)) : world := {|
  w_fs := fs; w_trace := []; w_enable_direct := true; w_included_files := inc;
  w_i_tmpfile := None; w_cpp_stderr := None;
  w_cached_obj_hash := hash_a; w_cached_obj := "/cache/aaaa.o";
  w_cached_stderr := "/cache/aaaa.stderr"; w_cached_dep := "/cache/aaaa.d";
  w_manifest_path := "/cache/m.manifest"; w_stats_file := "/cache/a/stats" |}.

(** An object hash computation that returns [h] and touches nothing. *)
Definition const_hash (h : file_hash) : M (option file_hash) := mret (Some h).

(** ** Frames of driver steps

    [frame w w'] says that a step from [w] to [w'] kept the globals that the
    manifest update reads and only appended events to the trace, none of
    them a call of manifest_put.  A computation is [no_hit] when it only
    makes such steps and never ends in [exit(0)]. *)

Definition is_manifest_put (e : event) : bool :=
  match e with EManifestPut _ _ _ => true | _ => false end.

Definition frame (w w' : world) : Prop :=
  w_enable_direct w' = w_enable_direct w
  /\ w_included_files w' = w_included_files w
  /\ w_cached_obj_hash w' = w_cached_obj_hash w
  /\ w_manifest_path w' = w_manifest_path w
  /\ exists l, w_trace w' = (w_trace w ++ l)%list /\ List.filter is_manifest_put l = [].

Definition no_hit {A} (m : M A) : Prop :=
  forall w, match m w with
            | (Ret _, w') => frame w w'
            | (Halt h, w') => frame w w' /\ h <> HExit 0
            end.

(** The calls of manifest_put that from_cache makes on a cache hit, by the
    code's condition. *)
Definition manifest_calls (cfg : config) (put_object_in_manifest : bool) (w : world)
  : list event :=
  match w_included_files w with
  | Some files =>
    if w_enable_direct w && put_object_in_manifest && negb (cfg_env_readonly cfg)
    then [EManifestPut (w_manifest_path w) (w_cached_obj_hash w) files]
    else []
  | None => []
  end.

(** A world whose cache holds the object of [aaaa], with an empty
    [included_files] table. *)
Definition hit_world : world :=
  world0 (<["/cache/aaaa.o" := "OBJ"]> ∅) (Some ∅).

(** What to_cache forwards to fd 2 when the compiler fails: the stderr of
    the preprocessor, if the run kept one, followed by the compiler's. *)
Definition forwarded_stderr (w : world) (err : string) : option string :=
  match w_cpp_stderr w with
  | None => Some err
  | Some p => option_map (fun c => c ++ err) (w_fs w !! p)
  end.

(** An option among [--ccache-skip], [path_opts] and [arg_opts], whose next
    token process_args copies into the stripped arguments. *)
Definition passes_next_to_args (t : string) : bool :=
  streq t "--ccache-skip" || mem t path_opts || mem t arg_opts.

(** No such option is directly followed by a [-o] token. *)
Fixpoint o_not_passed (args : list string) : bool :=
  match args with
  | a :: ((n :: _) as rest) =>
    negb (passes_next_to_args a && streq n "-o") && o_not_passed rest
  | _ => true
  end.

(** The invariant of the process_args loop on [stripped_args]: [argv[0]]
    first, [-c] present once seen; with [track_o], no [-o] in it nor as the
    input charset. *)
Definition args_inv (track_o : bool) (argv0 : string) (st : pa_state) : Prop :=
  head (stripped_args st) = Some argv0
  /\ (track_o = true -> ~ In "-o" (stripped_args st))
  /\ (found_c_opt st = true -> In "-c" (stripped_args st))
  /\ (track_o = true -> input_charset st <> Some "-o").

(** The same on a finished argument list. *)
Definition list_inv (track_o : bool) (argv0 : string) (l : list string) : Prop :=
  head l = Some argv0 /\ In "-c" l /\ (track_o = true -> ~ In "-o" l).

(** A line marker naming the header [/home/u/<x>], then a line of code;
    [String 034] is the double quote. *)
Definition c9_data : string :=
  "# 1 " ++ String "034" ("/home/u/<x>" ++ String "034" (String "010" "int x;")).

(** Every file operation succeeds except the copy or link of a cached
    file, which fails with [ENOENT], as when a concurrent cache cleanup
    removes the file just after from_cache saw it. *)
Definition os_enoent : oracles := {|
  os_xfer_error := fun _ _ _ => Some ENOENT;
  os_move_error := fun _ _ => None;
  os_is_compressed := fun _ => false;
  os_create_dir_ok := fun _ => true;
  os_create_ok := fun _ => true;
  os_execute := fun _ => (0%Z, "", "", Some "OBJ");
  os_format_hash_as_string := fh_hash;
  os_file_hashes_equal := fun a b => String.eqb (fh_hash a) (fh_hash b)
                                    && Z.eqb (fh_size a) (fh_size b);
  os_manifest_put := fun _ _ _ => true |}.

(* ================================================================== *)
(** * More of ccache.c: the common hash, find_compiler, main, ccache_main *)

Definition item_text (i : hash_item) : string :=
  match i with HBuffer s => s | HString s => s | _ => "" end.


Definition recorded_ok (input : string) (s : inc_state) (calls : list (string * nat)) : Prop :=
  forall m, included_files s = Some m -> forall k, m !! k <> None ->
    k <> input /\ exists len, In (k, len) calls /\ is_bracketed k len = false.


(** The directory levels [/name[i]/name[i+1]/...] ([n] of them) that
    get_path_in_cache puts between the cache directory and the file name. *)
Fixpoint cache_levels (name : string) (i n : nat) : string :=
  match n with
  | O => ""
  | S n' => "/" ++ String (char_at name i) "" ++ cache_levels name (S i) n'
  end.


(** [strtok] over a whole string: the maximal runs of characters that are
    not in [delims], in order (empty runs are skipped). *)
Definition strtok_flush (cur : list ascii) : list string :=
  match cur with [] => [] | _ => [string_of_list_ascii (rev cur)] end.

Fixpoint strtok_aux (delims : list ascii) (l : list ascii) (cur : list ascii) : list string :=
  match l with
  | [] => strtok_flush cur
  | c :: l' =>
    if existsb (Ascii.eqb c) delims then (strtok_flush cur ++ strtok_aux delims l' [])%list
    else strtok_aux delims l' (c :: cur)
  end.

Definition strtok_all (delims s : string) : list string :=
  strtok_aux (list_ascii_of_string delims) (list_ascii_of_string s) [].

(** One word of [CCACHE_SLOPPINESS] (ccache.c 1800-1813). *)
Definition sloppiness_word (result : Z) (word : string) : Z :=
  let result := if streq word "file_macro" then Z.lor result SLOPPY_FILE_MACRO else result in
  let result := if streq word "include_file_mtime"
                then Z.lor result SLOPPY_INCLUDE_FILE_MTIME else result in
  if streq word "time_macros" then Z.lor result SLOPPY_TIME_MACROS else result.

Definition parse_sloppiness (p : option string) : Z :=
  match p with
  | None => 0
  | Some s => fold_left sloppiness_word (strtok_all ", " s) 0%Z
  end.


(** calculate_common_hash (ccache.c 881-958).  [inl counter] is
    [stats_update(counter); failed()]. *)
Section CommonHash.
(** [stat(args->argv[0])]: [st_size] and [st_mtime], [None] when it fails. *)
Variable stat_compiler : string -> option (Z * Z).
Variable env_compilercheck : option string.   (* getenv("CCACHE_COMPILERCHECK") *)
Variable env_hashdir : bool.                  (* getenv("CCACHE_HASHDIR") != NULL *)
Variable gnu_getcwd : option string.
Variable env_extrafiles : option string.      (* getenv("CCACHE_EXTRAFILES") *)
(** [hash_file(hash, path)] succeeding. *)
Variable hash_file_ok : string -> bool.

Definition HASH_PREFIX : string := "3".

Fixpoint hash_extra_files (paths : list string) : option (list hash_item) :=
  match paths with
  | [] => Some []
  | path :: rest =>
    if hash_file_ok path
    then option_map (fun l => HDelimiter "extrafile" :: HFile path :: l) (hash_extra_files rest)
    else None
  end.

Definition calculate_common_hash (argv0 i_extension : string) : string + list hash_item :=
  let h_prefix := [HString HASH_PREFIX; HDelimiter "ext"; HString i_extension] in
  match stat_compiler argv0 with
  | None => inl "STATS_COMPILER"
  | Some (size, mtime) =>
    let compilercheck := match env_compilercheck with Some c => c | None => "mtime" end in
    let h_cc := if streq compilercheck "none" then []
                else if streq compilercheck "content" then [HDelimiter "cc_content"; HFile argv0]
                else [HDelimiter "cc_mtime"; HInt size; HInt mtime] in
    let h_name := [HDelimiter "cc_name"; HString (basename argv0)] in
    let h_cwd := if env_hashdir then
                   match gnu_getcwd with Some cwd => [HDelimiter "cwd"; HString cwd] | None => [] end
                 else [] in
    let h := (h_prefix ++ h_cc ++ h_name ++ h_cwd)%list in
    match env_extrafiles with
    | None => inr h
    | Some p =>
      match hash_extra_files (strtok_all ":" p) with
      | None => inl "STATS_BADEXTRAFILE"
      | Some hx => inr (h ++ hx)%list
      end
    end
  end.
End CommonHash.


(** find_compiler (ccache.c 1266-1308). *)
Inductive fc_result :=
| FCFatal (stats_compiler : bool)   (* [stats_update(STATS_COMPILER)] if set, then fatal() *)
| FCCrash                           (* a NULL argument vector entry is dereferenced *)
| FCOk (orig_args : list string).

Section FindCompiler.
(** [MYNAME], the name of the ccache binary (ccache.h). *)
Variable MYNAME : string.
Variable env_cc : option string.   (* getenv("CCACHE_CC") *)
(** util.c: [find_executable(name, exclude_name)]. *)
Variable find_executable : string -> string -> option string.

Definition find_compiler (argv : list string) : fc_result :=
  match argv with
  | [] => FCCrash
  | argv0 :: rest =>
    let step :=
      if streq (basename argv0) MYNAME then
        match rest with
        | [] => inl FCCrash
        | argv1 :: _ => if has_char "/" argv1 then inl (FCOk rest) else inr (rest, basename argv1)
        end
      else inr (argv, basename argv0) in
    match step with
    | inl r => r
    | inr (orig_args, base) =>
      let base := match env_cc with Some p => p | None => base end in
      match find_executable base MYNAME with
      | None => FCFatal true
      | Some compiler =>
        if streq compiler argv0 then FCFatal false
        else FCOk (compiler :: List.tl orig_args)
      end
    end
  end.
End FindCompiler.


(** main (ccache.c 2113-2195) up to the call of [ccache(argc, argv)]. *)
Inductive main_result :=
| MainExit (status : Z)
| MainOptions (cache_dir : option string)        (* return ccache_main(argc, argv) *)
| MainFailed           (* failed() from setup_uncached_err, before orig_args is set *)
| MainCompile (cache_dir temp_dir : string) (base_dir : option string)
              (compile_preprocessed_source_code : bool).

Section Main.
Variable MYNAME : string.
Variable getenv : string -> option string.
(** util.c: [get_home_directory()]. *)
Variable home_directory : option string.
(** [dup(2)] and [putenv] in setup_uncached_err succeeding. *)
Variable dup_ok putenv_ok : bool.
(** util.c: [create_dir(dir) == 0] and [create_cachedirtag(dir) == 0]. *)
Variable create_dir_ok : string -> bool.
Variable create_cachedirtag_ok : string -> bool.

Definition main (argv0 : string) (args : list string) : main_result :=
  let cache_dir := match getenv "CCACHE_DIR" with
                   | Some d => Some d
                   | None => option_map (fun h => h ++ "/.ccache") home_directory
                   end in
  let compile :=
    match cache_dir with
    | None => MainExit 1   (* check_cache_dir: fatal() *)
    | Some cache_dir =>
      let temp_dir := match getenv "CCACHE_TEMPDIR" with
                      | Some t => t | None => cache_dir ++ "/tmp" end in
      let base_dir := match getenv "CCACHE_BASEDIR" with
                      | Some b => if Ascii.eqb (char_at b 0) "/" then Some b else None
                      | None => None end in
      let cpsc := match getenv "CCACHE_CPP2" with Some _ => false | None => true end in
      if negb dup_ok || negb putenv_ok then MainFailed
      else if negb (create_dir_ok cache_dir) then MainExit 1
      else if negb (create_dir_ok temp_dir) then MainExit 1
      else if match getenv "CCACHE_READONLY" with None => true | Some _ => false end
              && negb (create_cachedirtag_ok cache_dir) then MainExit 1
      else MainCompile cache_dir temp_dir base_dir cpsc
    end in
  if streq (basename argv0) MYNAME then
    match args with
    | [] => MainExit 1   (* usage on stderr *)
    | a1 :: _ => if Ascii.eqb (char_at a1 0) "-" then MainOptions cache_dir else compile
    end
  else compile.
End Main.


(** ccache_main (ccache.c 1996-2087): the loop over the options returned by
    [getopt_long], given as (option character, optarg) pairs; an unknown
    option or a missing argument is returned by getopt_long as '?'. *)
Inductive cm_event :=
| CMOut (s : string)            (* text on stdout *)
| CMErr (s : string)            (* text on stderr *)
| CMFatal (s : string)          (* fatal(): message and exit(1) *)
| CMStatsSummary
| CMCleanupAll (dir : string)
| CMWipeAll (dir : string)
| CMStatsZero
| CMSetLimits (maxfiles maxsize : Z).

Section CcacheMain.
Variable VERSION_TEXT USAGE_TEXT : string.
(** [atoi], [value_units], [format_size] and the [%u] conversion of printf. *)
Variable atoi value_units : string -> Z.
Variable format_size format_unsigned : Z -> string.
(** [stats_set_limits(maxfiles, maxsize) == 0]. *)
Variable stats_set_limits_ok : Z -> Z -> bool.

(** Events and [Some status] when the loop calls exit(status), [None] when
    getopt_long returns -1 and the loop ends. *)
Fixpoint ccache_main_loop (cache_dir : option string) (opts : list (ascii * string))
  : list cm_event * option Z :=
  match opts with
  | [] => ([], None)
  | (c, optarg) :: rest =>
    let continue evs := let '(evs', st) := ccache_main_loop cache_dir rest in
                        (evs ++ evs', st)%list in
    let check_cache_dir (k : string -> list cm_event * option Z) :=
      match cache_dir with
      | None => ([CMFatal "Unable to determine cache directory"], Some 1%Z)
      | Some d => k d
      end in
    if Ascii.eqb c "V" then ([CMOut VERSION_TEXT], Some 0%Z)
    else if Ascii.eqb c "h" then ([CMOut USAGE_TEXT], Some 0%Z)
    else if Ascii.eqb c "s" then
      check_cache_dir (fun _ => continue [CMStatsSummary])
    else if Ascii.eqb c "c" then
      check_cache_dir (fun d => continue [CMCleanupAll d; CMOut "Cleaned cache"])
    else if Ascii.eqb c "C" then
      check_cache_dir (fun d => continue [CMWipeAll d; CMOut "Cleared cache"])
    else if Ascii.eqb c "z" then
      check_cache_dir (fun _ => continue [CMStatsZero; CMOut "Statistics cleared"])
    else if Ascii.eqb c "F" then
      check_cache_dir (fun _ =>
        let v := Z.modulo (atoi optarg) (2 ^ 64) in   (* size_t v = atoi(optarg) *)
        if stats_set_limits_ok v (-1) then
          continue [CMSetLimits v (-1);
                    CMOut (if Z.eqb v 0 then "Unset cache file limit"
                           else "Set cache file limit to " ++ format_unsigned v)]
        else ([CMSetLimits v (-1); CMOut "Could not set cache file limit."], Some 1%Z))
    else if Ascii.eqb c "M" then
      check_cache_dir (fun _ =>
        let v := value_units optarg in
        if stats_set_limits_ok (-1) v then
          continue [CMSetLimits (-1) v;
                    CMOut (if Z.eqb v 0 then "Unset cache size limit"
                           else "Set cache size limit to " ++ format_size v)]
        else ([CMSetLimits (-1) v; CMOut "Could not set cache size limit."], Some 1%Z))
    else ([CMErr USAGE_TEXT], Some 1%Z)
  end.

(** The exit status of ccache_main: exit(status), or [return 0]. *)
Definition ccache_main (cache_dir : option string) (opts : list (ascii * string))
  : list cm_event * Z :=
  let '(evs, st) := ccache_main_loop cache_dir opts in
  (evs, match st with Some s => s | None => 0%Z end).
End CcacheMain.

Definition cm_touches_cache (e : cm_event) : bool :=
  match e with
  | CMStatsSummary | CMCleanupAll _ | CMWipeAll _ | CMStatsZero | CMSetLimits _ _ => true
  | _ => false
  end.


Definition always_halts {A} (m : M A) : Prop := forall w, exists h, fst (m w) = Halt h.

(** A short preprocessor output: a line of code, a line marker naming
    [a.h] ([String 034] is the double quote) and another line of code. *)
Definition pp_sample : string :=
  "int x;" ++ String "010" ("# 1 " ++ String "034" ("a.h" ++ String "034"
    (String "010" "int y;"))).

(** [cfg0] with two directory levels in the cache. *)
Definition cfg2 : config := {|
  cfg_output_obj := "foo.o"; cfg_output_dep := "foo.d"; cfg_input_file := "foo.c";
  cfg_generating_dependencies := false; cfg_direct_i_file := false;
  cfg_enable_compression := false; cfg_compile_preprocessed_source_code := true;
  cfg_cache_dir := "/cache"; cfg_nlevels := 2%nat;
  cfg_env_recache := false; cfg_env_hardlink := false; cfg_env_readonly := false;
  cfg_prefix_not_found := false; cfg_tmp_string := "t" |}.

(** * Theorems *)

Example hash_arguments_ex1 :
  hash_arguments no_file no_file false ["gcc"; "-c"; "-I"; "inc"; "-DX=1"; "-L"; "lib"; "-O2"]
  = Some [HDelimiter "arg"; HString "-c"; HDelimiter "arg"; HString "-O2"].
Proof. reflexivity. Qed.

(** ** C1 *)

Ltac in_cases H :=
  repeat (destruct H as [<- | H]; [ | ]); try contradiction.

(** C1 (as stated, refuted): the joined form [-isystem/opt/inc] is not
    excluded from the preprocessor-mode hash: the argument list with it
    hashes differently from the one without it. *)
Lemma C1_joined_isystem_hashed :
  hash_arguments no_file no_file false ["gcc"; "-isystem/opt/inc"]
  <> hash_arguments no_file no_file false ["gcc"].
Proof. vm_compute. congruence. Qed.

(** The slip next to it: [-nostdinc] is listed among the options that take
    an argument, so as the last token it is hashed, and before another
    token it hides that token from the preprocessor-mode hash. *)
Example nostdinc_last_hashed :
  hash_arguments no_file no_file false ["gcc"; "-c"; "-nostdinc"]
  = Some [HDelimiter "arg"; HString "-c"; HDelimiter "arg"; HString "-nostdinc"].
Proof. reflexivity. Qed.

Example nostdinc_hides_next :
  hash_arguments no_file no_file false ["gcc"; "-nostdinc"; "-O2"]
  = hash_arguments no_file no_file false ["gcc"; "-nostdinc"; "-O0"].
Proof. reflexivity. Qed.

(** C1 (amended).  In preprocessor mode a spaced [-D], [-I], [-U],
    [-idirafter], [-imacros], [-imultilib], [-include], [-iprefix], [-iquote],
    [-isysroot], [-isystem], [-iwithprefix] or [-iwithprefixbefore] together
    with the token after it, and a joined [-D...], [-I...] or [-U...], add
    nothing to the hash, while the joined forms of the other options are
    hashed like any argument.  In direct mode all these tokens are hashed.
    In both modes [-L] with its argument, a trailing [-L] and a joined
    [-L...] add nothing. *)
Theorem C1_argument_hash_modes (fe hf : string -> bool) :
  (forall o v rest, In o cpp_skip_opts_with_arg ->
     hash_args_loop fe hf false (o :: v :: rest) = hash_args_loop fe hf false rest) /\
  (forall p v rest, In p ["-D"; "-I"; "-U"] -> v <> "" ->
     hash_args_loop fe hf false ((p ++ v) :: rest) = hash_args_loop fe hf false rest) /\
  (forall o v rest, In o cpp_joined_unknown_opts -> v <> "" ->
     ~ In (o ++ v) cpp_skip_spaced_opts ->
     hash_args_loop fe hf false ((o ++ v) :: rest)
     = option_map (fun l => HDelimiter "arg" :: HString (o ++ v) :: l)
                  (hash_args_loop fe hf false rest)) /\
  (forall o v rest, In o cpp_skip_spaced_opts ->
     hash_args_loop fe hf true ((o ++ v) :: rest)
     = option_map (fun l => HDelimiter "arg" :: HString (o ++ v) :: l)
                  (hash_args_loop fe hf true rest)) /\
  (forall dm v rest, hash_args_loop fe hf dm ("-L" :: v :: rest) = hash_args_loop fe hf dm rest) /\
  (forall dm, hash_args_loop fe hf dm ["-L"] = Some []) /\
  (forall dm v rest, v <> "" ->
     hash_args_loop fe hf dm (("-L" ++ v) :: rest) = hash_args_loop fe hf dm rest).
Proof.
  split; [| split; [| split; [| split; [| split; [| split]]]]].
  - intros o v rest Ho. simpl in Ho. in_cases Ho; reflexivity.
  - intros p v rest Hp Hv. destruct v as [| c v]; [congruence |].
    simpl in Hp. in_cases Hp; destruct rest; reflexivity.
  - intros o v rest Ho Hv Hn. destruct v as [| c v]; [congruence |].
    destruct rest as [| r rest].
    + simpl in Ho. in_cases Ho; reflexivity.
    + assert (E : existsb (streq (o ++ String c v)) cpp_skip_spaced_opts = false).
      { apply not_true_iff_false. intros Hx. apply Hn.
        apply existsb_exists in Hx as [x [Hx Heq]].
        apply String.eqb_eq in Heq. subst x. exact Hx. }
      simpl in Ho. in_cases Ho; cbn -[existsb cpp_skip_spaced_opts] in E |- *;
        rewrite E; reflexivity.
  - intros o v rest Ho. simpl in Ho.
    in_cases Ho; destruct v as [| c v]; destruct rest; reflexivity.
  - reflexivity.
  - reflexivity.
  - intros dm v rest Hv. destruct v as [| c v]; [congruence |].
    destruct rest; reflexivity.
Qed.

(** A use of [C1_argument_hash_modes] on a concrete invocation. *)
Lemma C1_argument_hash_modes_witness :
  hash_args_loop no_file no_file false ["-I"; "inc"; "-c"] = hash_args_loop no_file no_file false ["-c"]
  /\ hash_args_loop no_file no_file false ["-DX"; "-c"] = hash_args_loop no_file no_file false ["-c"].
Proof.
  split.
  - apply (C1_argument_hash_modes no_file no_file); simpl; tauto.
  - apply (proj1 (proj2 (C1_argument_hash_modes no_file no_file)) "-D" "X" ["-c"]);
      [simpl; tauto | discriminate].
Defined.

(** ** C2 *)

(** C2 (as stated, refuted): a path whose mtime is not older than the
    compilation start, with [SLOPPY_INCLUDE_FILE_MTIME] unset, does not
    disable direct mode when it names a directory: remember_include_file
    ignores it before the mtime test, and [enable_direct] stays 1. *)
Lemma C2_recent_directory_keeps_direct :
  enable_direct
    (remember_include_file "/src/main.c" 100 0 c2_stat c2_hash "/src" 4
       {| enable_direct := true; included_files := Some ∅ |}) = true
  /\ (100 <= 200)%Z.
Proof. split; [reflexivity | lia]. Qed.

Section C2.
Variable input_file : string.
Variable time_of_compilation sloppiness : Z.
Variable stat_include : string -> option file_info.
Variable hash_source_code_string : string -> string -> Z * file_hash.

(** C2 (amended).  Let [stat] report an mtime not older than
    [time_of_compilation] for [path], with [SLOPPY_INCLUDE_FILE_MTIME]
    unset.  Then the call never records [path]: [included_files] is left as
    it was.  And unless one of the earlier guards ignores the path
    ([included_files] is NULL, the path is bracketed like [<built-in>], it
    is the input file, it is already recorded, or it is a directory), the
    call sets [enable_direct] to 0. *)
Theorem C2_recent_include_not_recorded (path : string) (path_len : nat)
    (s : inc_state) (st : file_info) :
  stat_include path = Some st ->
  Z.land sloppiness SLOPPY_INCLUDE_FILE_MTIME = 0%Z ->
  (time_of_compilation <= st_mtime st)%Z ->
  included_files (remember_include_file input_file time_of_compilation sloppiness
                    stat_include hash_source_code_string path path_len s)
  = included_files s
  /\ (forall m, included_files s = Some m ->
        is_bracketed path path_len = false ->
        streq path input_file = false ->
        m !! path = None ->
        st_is_dir st = false ->
        remember_include_file input_file time_of_compilation sloppiness
          stat_include hash_source_code_string path path_len s
        = {| enable_direct := false; included_files := Some m |}).
Proof.
  intros Hst Hslop Hmt.
  assert (Hb : ((Z.land sloppiness SLOPPY_INCLUDE_FILE_MTIME =? 0)%Z
                && (time_of_compilation <=? st_mtime st)%Z) = true).
  { rewrite Hslop, Z.eqb_refl. apply Z.leb_le. exact Hmt. }
  unfold remember_include_file. split.
  - destruct (included_files s) as [m |] eqn:E; [| exact E].
    destruct (is_bracketed path path_len); [exact E |].
    destruct (streq path input_file); [exact E |].
    destruct (m !! path); [exact E |].
    rewrite Hst. destruct (st_is_dir st); [exact E |].
    rewrite Hb. exact E.
  - intros m Hm Hbr Hin Hnone Hdir.
    rewrite Hm, Hbr, Hin, Hnone, Hst, Hdir, Hb.
    unfold disable_direct. rewrite Hm. reflexivity.
Qed.
End C2.

(** A use of [C2_recent_include_not_recorded] on the header [/src/a.h]. *)
Lemma C2_recent_include_not_recorded_witness :
  included_files
    (remember_include_file "/src/main.c" 100 0 c2_stat c2_hash "/src/a.h" 8
       {| enable_direct := true; included_files := Some ∅ |}) = Some ∅
  /\ remember_include_file "/src/main.c" 100 0 c2_stat c2_hash "/src/a.h" 8
       {| enable_direct := true; included_files := Some ∅ |}
     = {| enable_direct := false; included_files := Some ∅ |}.
Proof.
  destruct (C2_recent_include_not_recorded "/src/main.c" 100 0 c2_stat c2_hash
              "/src/a.h" 8 {| enable_direct := true; included_files := Some ∅ |}
              {| st_is_dir := false; st_mtime := 200; st_size := 0;
                 st_mmap_ok := true; st_data := "" |}) as [H1 H2];
    [reflexivity | reflexivity | simpl; lia |].
  split; [exact H1 |].
  apply H2; reflexivity.
Defined.

(** ** C3 *)

(** C3.  Suppose direct mode is on, the direct-mode hash [hm] was found in
    the manifest, the cache could not serve it (from_cache returned), and
    the preprocessor-mode hash [h] differs from [hm].  Then the driver
    unlinks the manifest and tries the cache in preprocessor mode with
    [put_object_in_manifest] set, and compiles with it set if that
    returns. *)
Theorem C3_stale_manifest_removed (cfg : config) (os : oracles)
    (calc_direct calc_cpp : M (option file_hash)) (compiler_args : list string)
    (hm h : file_hash) (w0 w1 w2 w3 w4 w5 : world) :
  w_enable_direct w0 = true ->
  calc_direct w0 = (Ret (Some hm), w1) ->
  update_cached_result_globals cfg os hm w1 = (Ret tt, w2) ->
  from_cache cfg os FROMCACHE_DIRECT_MODE false w2 = (Ret tt, w3) ->
  calc_cpp w3 = (Ret (Some h), w4) ->
  update_cached_result_globals cfg os h w4 = (Ret tt, w5) ->
  os_file_hashes_equal os hm h = false ->
  ccache_lookup cfg os calc_direct calc_cpp compiler_args w0
  = (unlink (w_manifest_path w5) ;;
     from_cache cfg os FROMCACHE_CPP_MODE true ;;
     ccache_compile cfg os compiler_args true) w5.
Proof.
  intros Hed Hd Hu1 Hf Hc Hu2 Heq.
  unfold ccache_lookup, mbind at 1, gets at 1. rewrite Hed.
  unfold mbind at 1 2. rewrite Hd.
  unfold mbind at 1. rewrite Hu1.
  unfold mbind at 1. rewrite Hf.
  unfold mret at 1. cbn beta iota.
  unfold mbind at 1. rewrite Hc.
  unfold mbind at 1. rewrite Hu2.
  rewrite Heq. reflexivity.
Qed.

(** A use of [C3_stale_manifest_removed]: the manifest pointed to
    [aaaa], whose object is not in the cache, and the preprocessor output
    hashes to [bbbb]. *)
Lemma C3_stale_manifest_removed_witness :
  ccache_lookup cfg0 (os0 0 "" "") (const_hash hash_a) (const_hash hash_b) ["gcc"; "-c"]
    (world0 ∅ (Some ∅))
  = (unlink "/cache/m.manifest" ;;
     from_cache cfg0 (os0 0 "" "") FROMCACHE_CPP_MODE true ;;
     ccache_compile cfg0 (os0 0 "" "") ["gcc"; "-c"] true)
      (set_stats_file "/cache/b/stats" (set_cached_result hash_b "/cache/bbbb.o" "/cache/bbbb.stderr" "/cache/bbbb.d"
         (world0 ∅ (Some ∅)))).
Proof.
  apply (C3_stale_manifest_removed cfg0 (os0 0 "" "") (const_hash hash_a) (const_hash hash_b)
           ["gcc"; "-c"] hash_a hash_b (world0 ∅ (Some ∅)) (world0 ∅ (Some ∅))
           (set_stats_file "/cache/a/stats" (set_cached_result hash_a "/cache/aaaa.o" "/cache/aaaa.stderr" "/cache/aaaa.d"
              (world0 ∅ (Some ∅))))
           (set_stats_file "/cache/a/stats" (set_cached_result hash_a "/cache/aaaa.o" "/cache/aaaa.stderr" "/cache/aaaa.d"
              (world0 ∅ (Some ∅))))
           (set_stats_file "/cache/a/stats" (set_cached_result hash_a "/cache/aaaa.o" "/cache/aaaa.stderr" "/cache/aaaa.d"
              (world0 ∅ (Some ∅))))
           (set_stats_file "/cache/b/stats" (set_cached_result hash_b "/cache/bbbb.o" "/cache/bbbb.stderr" "/cache/bbbb.d"
              (world0 ∅ (Some ∅)))));
    vm_compute; reflexivity.
Defined.

(** ** C4 *)

Lemma frame_refl w : frame w w.
Proof. repeat split; exists []; rewrite app_nil_r; auto. Qed.

Lemma frame_trans w1 w2 w3 : frame w1 w2 -> frame w2 w3 -> frame w1 w3.
Proof.
  intros (E1 & I1 & H1 & P1 & l1 & T1 & F1) (E2 & I2 & H2 & P2 & l2 & T2 & F2).
  repeat split; try congruence.
  exists (l1 ++ l2)%list. split.
  - rewrite T2, T1, app_assoc. reflexivity.
  - rewrite List.filter_app, F1, F2. reflexivity.
Qed.

Lemma frame_event w e : is_manifest_put e = false -> frame w (add_event e w).
Proof.
  intros He. repeat split. exists [e]. split; [reflexivity |]. simpl. rewrite He. reflexivity.
Qed.

Lemma frame_fs w fs : frame w (set_fs fs w).
Proof. repeat split. exists []. rewrite app_nil_r. auto. Qed.

Lemma no_hit_mret {A} (a : A) : no_hit (mret a).
Proof. intros w. apply frame_refl. Qed.

Lemma no_hit_skip : no_hit skip.
Proof. apply no_hit_mret. Qed.

Lemma no_hit_gets {A} (f : world -> A) : no_hit (gets f).
Proof. intros w. apply frame_refl. Qed.

Lemma no_hit_bind {A B} (m : M A) (k : A -> M B) :
  no_hit m -> (forall a, no_hit (k a)) -> no_hit (mbind m k).
Proof.
  intros Hm Hk w. unfold mbind. specialize (Hm w).
  destruct (m w) as [[a | h] w1].
  - specialize (Hk a w1). destruct (k a w1) as [[b | h] w2].
    + eapply frame_trans; eauto.
    + destruct Hk. split; [eapply frame_trans |]; eauto.
  - exact Hm.
Qed.

Lemma no_hit_halt {A} h : h <> HExit 0 -> no_hit (@halt_with A h).
Proof. intros Hh w. split; [apply frame_refl | exact Hh]. Qed.

Lemma no_hit_emit e : is_manifest_put e = false -> no_hit (emit e).
Proof. intros He w. apply frame_event, He. Qed.

Lemma no_hit_stats c : no_hit (stats_update c).
Proof. apply no_hit_emit. reflexivity. Qed.

Lemma no_hit_unlink p : no_hit (unlink p).
Proof.
  intros w. eapply frame_trans; [apply (frame_fs w (delete p (w_fs w))) |].
  apply frame_event. reflexivity.
Qed.

Lemma no_hit_write_file p c : no_hit (write_file p c).
Proof. intros w. apply frame_fs. Qed.

Lemma no_hit_read_file p : no_hit (read_file p).
Proof. apply no_hit_gets. Qed.

Lemma no_hit_file_exists p : no_hit (file_exists p).
Proof. apply no_hit_gets. Qed.

Lemma no_hit_modify_cpp c : no_hit (modify (set_cpp_stderr c)).
Proof. intros w. repeat split. exists []. rewrite app_nil_r. auto. Qed.

Lemma no_hit_modify_i c : no_hit (modify (set_i_tmpfile c)).
Proof. intros w. repeat split. exists []. rewrite app_nil_r. auto. Qed.

Lemma no_hit_fallback cfg : fallback_halt cfg <> HExit 0.
Proof. unfold fallback_halt. destruct (cfg_prefix_not_found cfg); congruence. Qed.

Ltac solve_no_hit :=
  repeat (intros; first
    [ apply no_hit_bind
    | apply no_hit_mret | apply no_hit_skip | apply no_hit_gets
    | apply no_hit_stats | apply no_hit_unlink | apply no_hit_write_file
    | apply no_hit_read_file | apply no_hit_file_exists
    | apply no_hit_modify_cpp | apply no_hit_modify_i
    | apply no_hit_emit; reflexivity
    | apply no_hit_halt; apply no_hit_fallback
    | match goal with
      | |- no_hit (if ?b then _ else _) => destruct b
      | |- no_hit (match ?x with _ => _ end) => destruct x
      end ]).

Lemma no_hit_cleanup cfg : no_hit (cleanup_intermediates cfg).
Proof. unfold cleanup_intermediates. solve_no_hit. Qed.

Lemma no_hit_failed {A} cfg : no_hit (@failed cfg A).
Proof. unfold failed. solve_no_hit. Qed.

Lemma no_hit_copy_or_link cfg os src dst : no_hit (copy_or_link cfg os src dst).
Proof. unfold copy_or_link, read_file. solve_no_hit. Qed.

Lemma no_hit_copy_file os src dst : no_hit (copy_file os src dst).
Proof. unfold copy_file, read_file. solve_no_hit. Qed.

Lemma no_hit_not_hit {A} (m : M A) w w' : no_hit m -> m w <> (Halt (HExit 0), w').
Proof. intros Hm E. specialize (Hm w). rewrite E in Hm. destruct Hm as [_ []]. reflexivity. Qed.

Lemma bind_hit {A B} (m : M A) (k : A -> M B) w w' :
  no_hit m -> mbind m k w = (Halt (HExit 0), w') ->
  exists a w1, m w = (Ret a, w1) /\ frame w w1 /\ k a w1 = (Halt (HExit 0), w').
Proof.
  intros Hm E. unfold mbind in E. pose proof (Hm w) as Hw.
  destruct (m w) as [[a | h] w1].
  - exists a, w1. auto.
  - inversion E; subst. destruct Hw as [_ []]. reflexivity.
Qed.

Ltac solve_no_hit2 :=
  repeat (intros; first
    [ apply no_hit_cleanup | apply no_hit_failed | apply no_hit_copy_or_link
    | apply no_hit_copy_file
    | apply no_hit_bind
    | apply no_hit_mret | apply no_hit_skip | apply no_hit_gets
    | apply no_hit_stats | apply no_hit_unlink | apply no_hit_write_file
    | apply no_hit_read_file | apply no_hit_file_exists
    | apply no_hit_modify_cpp | apply no_hit_modify_i
    | apply no_hit_emit; reflexivity
    | apply no_hit_halt; apply no_hit_fallback
    | match goal with
      | |- no_hit (if ?b then _ else _) => destruct b
      | |- no_hit (match ?x with _ => _ end) => destruct x
      end ]).

Ltac hit_peel H Hacc :=
  repeat (cbv beta iota zeta in H; first
    [ match type of H with
      | (if ?b then _ else _) _ = _ => destruct b
      | (match ?x with _ => _ end) _ = _ => destruct x
      end
    | let a := fresh "a" in let w1 := fresh "w" in
      let Hm := fresh "Hm" in let Hf := fresh "Hf" in
      apply bind_hit in H; [destruct H as (a & w1 & Hm & Hf & H) | solve [solve_no_hit2]];
      pose proof (frame_trans _ _ _ Hacc Hf) as Hnew; clear Hacc Hf; rename Hnew into Hacc;
      try (unfold file_exists, read_file, gets in Hm; injection Hm as ? ?; subst)
    | exfalso; eapply no_hit_not_hit; [| exact H]; solve [solve_no_hit2] ]).

(** C4 (as stated, refuted): on a cache hit with direct mode on and
    [put_object_in_manifest] set, from_cache calls manifest_put although
    [included_files] is empty, and exits with status 0. *)
Lemma C4_empty_include_set_put :
  fst (from_cache cfg0 (os0 0 "" "") FROMCACHE_CPP_MODE true hit_world) = Halt (HExit 0)
  /\ w_included_files hit_world = Some ∅
  /\ List.filter is_manifest_put
       (w_trace (snd (from_cache cfg0 (os0 0 "" "") FROMCACHE_CPP_MODE true hit_world)))
     = [EManifestPut "/cache/m.manifest" hash_a ∅].
Proof. vm_compute. repeat split. Qed.

(** C4 (amended).  When from_cache serves from the cache and exits with
    status 0, the events it adds call manifest_put exactly once, with the
    manifest path, the object hash and the table [included_files], when
    [enable_direct] and [put_object_in_manifest] are set, [included_files]
    is not NULL (it may be empty) and [CCACHE_READONLY] is unset; otherwise
    they call it not at all. *)
Theorem C4_manifest_put_on_hit (cfg : config) (os : oracles)
    (mode : fromcache_call_mode) (put_object_in_manifest : bool) (w w' : world) :
  from_cache cfg os mode put_object_in_manifest w = (Halt (HExit 0), w') ->
  exists l, w_trace w' = (w_trace w ++ l)%list
            /\ List.filter is_manifest_put l = manifest_calls cfg put_object_in_manifest w.
Proof.
  intros H. pose proof (frame_refl w) as Hacc. unfold from_cache in H.
  hit_peel H Hacc.
  destruct Hacc as (E & I & Hh & P & l & T & F).
  unfold manifest_calls. rewrite <- I, <- E, <- Hh, <- P.
  destruct (w_included_files w5) as [files |];
    [destruct (w_enable_direct w5 && put_object_in_manifest && negb (cfg_env_readonly cfg));
     [destruct (os_manifest_put os (w_manifest_path w5) (w_cached_obj_hash w5) files) |] |];
    destruct mode;
    cbn [mbind emit modify stats_update skip mret halt_with] in H;
    injection H as <-; cbn [w_trace add_event];
    eexists; (split; [rewrite T, <- ?app_assoc; reflexivity |]);
    rewrite ?List.filter_app, F; reflexivity.
Qed.

(** A use of [C4_manifest_put_on_hit] on the hit of [hit_world]. *)
Lemma C4_manifest_put_on_hit_witness :
  exists l, w_trace (snd (from_cache cfg0 (os0 0 "" "") FROMCACHE_CPP_MODE true hit_world))
            = (w_trace hit_world ++ l)%list
            /\ List.filter is_manifest_put l = manifest_calls cfg0 true hit_world.
Proof.
  apply (C4_manifest_put_on_hit cfg0 (os0 0 "" "") FROMCACHE_CPP_MODE true hit_world).
  vm_compute. reflexivity.
Defined.

(** ** C5 *)

Lemma str_app_cons (a : ascii) (x y : string) : (String a x ++ y)%string = String a (x ++ y).
Proof. reflexivity. Qed.

Lemma str_app_cancel_l (c x y : string) : (c ++ x)%string = (c ++ y)%string -> x = y.
Proof.
  induction c as [| a c IH]; [auto |].
  rewrite !str_app_cons. intros H. injection H. auto.
Qed.

Lemma str_length_app (x y : string) :
  String.length (x ++ y) = (String.length x + String.length y)%nat.
Proof. induction x as [| a x IH]; [reflexivity |]. rewrite str_app_cons. simpl. auto. Qed.

Lemma str_app_nil_r (x : string) : (x ++ EmptyString)%string = x.
Proof. induction x as [| a x IH]; [reflexivity |]. rewrite str_app_cons. congruence. Qed.

Lemma prefix_app (c x : string) : String.prefix c (c ++ x) = true.
Proof.
  induction c as [| a c IH]; [destruct x; reflexivity |].
  rewrite str_app_cons. simpl. destruct (ascii_dec a a); [exact IH | congruence].
Qed.

Lemma not_prefix_ne (c x p : string) : String.prefix c p = false -> p <> (c ++ x)%string.
Proof. intros H ->. rewrite prefix_app in H. discriminate. Qed.

Lemma bind_assoc {A B C} (m : M A) (k1 : A -> M B) (k2 : B -> M C) w :
  mbind (mbind m k1) k2 w = mbind m (fun a => mbind (k1 a) k2) w.
Proof. unfold mbind. destruct (m w) as [[a | h] w']; reflexivity. Qed.

Lemma bind_ret {A B} (m : M A) (k : A -> M B) w a w' :
  m w = (Ret a, w') -> mbind m k w = k a w'.
Proof. intros E. unfold mbind. rewrite E. reflexivity. Qed.

Lemma bind_halt {A B} (m : M A) (k : A -> M B) w h w' :
  m w = (Halt h, w') -> mbind m k w = (Halt h, w').
Proof. intros E. unfold mbind. rewrite E. reflexivity. Qed.

Ltac prim_eval t :=
  eval cbv beta iota zeta delta [unlink modify emit gets mret write_file read_file
                                  file_exists stats_update skip halt_with] in t.

Ltac ne_tac := first [assumption | apply not_eq_sym; assumption].
Ltac lk := repeat first [ rewrite lookup_insert_eq | rewrite lookup_delete_eq
                        | rewrite lookup_insert_ne by ne_tac
                        | rewrite lookup_delete_ne by ne_tac ].
Ltac proj_simpl :=
  cbn [w_fs w_trace w_cpp_stderr w_i_tmpfile w_enable_direct w_included_files
       w_cached_obj_hash w_cached_obj w_cached_stderr w_cached_dep w_manifest_path
       add_event set_fs set_cpp_stderr set_i_tmpfile].

Ltac sym_step ext :=
  cbv beta iota zeta delta [negb andb orb]; proj_simpl; lk; try ext;
  lazymatch goal with
  | |- match ?t with _ => _ end =>
    lazymatch t with
    | mbind (mbind ?m ?k1) ?k2 ?w => rewrite (bind_assoc m k1 k2 w)
    | mbind (match ?x with _ => _ end) _ _ => destruct x eqn:?
    | mbind ?m ?k ?w =>
        let r := prim_eval (m w) in
        lazymatch r with
        | (Ret ?a, ?w') => rewrite (bind_ret m k w a w' eq_refl)
        | (Halt ?h, ?w') => rewrite (bind_halt m k w h w' eq_refl)
        end
    | (match ?x with _ => _ end) _ => destruct x eqn:?
    | ?m ?w => let r := prim_eval (m w) in change t with r
    end
  end.

Ltac sym_exec ext := repeat (sym_step ext); cbv beta iota zeta; proj_simpl; lk.

Ltac keep_tac :=
  repeat first
    [ rewrite lookup_delete_ne by ne_tac
    | rewrite lookup_insert_ne by ne_tac
    | match goal with
      | |- context [delete ?a _ !! ?c] =>
          destruct (decide (a = c)) as [E | ?];
          [rewrite E, lookup_delete_eq; right; reflexivity |]
      end ];
  left; reflexivity.

Ltac c5_reason :=
  first
  [ exfalso; match goal with
             | H : false = true |- _ => discriminate H
             | H : (?x =? ?x)%Z = false |- _ => rewrite Z.eqb_refl in H; discriminate H
             end
  | left; intros E;
    match goal with H : _ = true |- _ => rewrite E in H; discriminate H end
  | right; left; eexists; split; [reflexivity |];
    first [ left; assumption
          | right; match goal with H : (if os_create_ok ?o ?x then _ else _) = true |- _ =>
                     destruct (os_create_ok o x); [discriminate H | reflexivity] end ]
  | right; right; split;
    [ match goal with H : streq (cfg_output_obj _) "/dev/null" = false |- _ =>
        apply String.eqb_neq, H end |];
    eexists; split;
    [ first [reflexivity | eassumption]
    | match goal with H : (_ =? ENOENT)%Z = false |- _ => apply Z.eqb_neq, H end ] ].

Section C5.
Variable cfg : config.
Variable os : oracles.
Variable args : list string.
Variable w : world.
Variable status : Z.
Variable out err : string.
Variable obj : option string.
Hypothesis Hexec :
  os_execute os (compile_argv cfg args (w_cached_obj w) (w_i_tmpfile w)) = (status, out, err, obj).
Hypothesis Hstatus : status <> 0%Z.
Hypothesis Hout_obj : cfg_output_obj cfg <> w_cached_obj w.
Hypothesis Hout_err : cfg_output_obj cfg <> w_cached_stderr w.
Hypothesis Hstderr : String.prefix (w_cached_obj w) (w_cached_stderr w) = false.
Hypothesis Hcpp : forall p, w_cpp_stderr w = Some p -> String.prefix (w_cached_obj w) p = false.

(** C5 (amended).  Let the real compiler, run by to_cache, exit with a
    non-zero [status].  Then either to_cache writes the merged stderr
    (the preprocessor's stderr, when the run kept one, followed by the
    compiler's) to fd 2 and exits with [status], or it falls back to the
    real compiler, and then for one of these reasons: the compiler wrote to
    stdout; the preprocessor's stderr file cannot be read, or the merged
    stderr file cannot be created; or moving the object to the output path
    (not [/dev/null]) fails with an error other than [ENOENT].  In both
    cases the cached object and the cached stderr are left as they were, or
    deleted; nothing is stored in the cache. *)
Theorem C5_failed_compile_not_cached :
  match to_cache cfg os args w with
  | (o, w') =>
    ((o = Halt (HExit status)
      /\ exists data l, w_trace w' = (w_trace w ++ l)%list /\ In (EWriteStderr data) l
                        /\ forwarded_stderr w err = Some data)
     \/ (o = Halt (fallback_halt cfg)
         /\ (out <> ""
             \/ (exists p, w_cpp_stderr w = Some p
                 /\ (w_fs w !! p = None
                     \/ os_create_ok os (w_cached_obj w ++ ".tmp.stderr." ++ cfg_tmp_string cfg) = false))
             \/ (cfg_output_obj cfg <> "/dev/null"
                 /\ exists e, os_move_error os (w_cached_obj w ++ ".tmp." ++ cfg_tmp_string cfg)
                                (cfg_output_obj cfg) = Some e /\ e <> ENOENT))))
    /\ (w_fs w' !! w_cached_obj w = w_fs w !! w_cached_obj w \/ w_fs w' !! w_cached_obj w = None)
    /\ (w_fs w' !! w_cached_stderr w = w_fs w !! w_cached_stderr w
        \/ w_fs w' !! w_cached_stderr w = None)
  end.
Proof.
  pose proof (Hcpp) as Hcpp'.
  unfold to_cache. cbn [mbind gets]. rewrite Hexec.
  set (co := w_cached_obj w) in *. set (cs := w_cached_stderr w) in *.
  set (t := cfg_tmp_string cfg) in *.
  assert (Hlen : forall x, x <> ""%string -> co <> (co ++ x)%string).
  { intros x Hx E. apply (f_equal String.length) in E. rewrite str_length_app in E.
    destruct x; [congruence | simpl in E; lia]. }
  assert (N1 : co <> (co ++ ".tmp.stdout." ++ t)%string) by (apply Hlen; discriminate).
  assert (N2 : co <> (co ++ ".tmp.stderr." ++ t)%string) by (apply Hlen; discriminate).
  assert (N3 : co <> (co ++ ".tmp." ++ t)%string) by (apply Hlen; discriminate).
  assert (N4 : cs <> (co ++ ".tmp.stdout." ++ t)%string) by (apply not_prefix_ne; exact Hstderr).
  assert (N5 : cs <> (co ++ ".tmp.stderr." ++ t)%string) by (apply not_prefix_ne; exact Hstderr).
  assert (N6 : cs <> (co ++ ".tmp." ++ t)%string) by (apply not_prefix_ne; exact Hstderr).
  assert (N7 : (co ++ ".tmp.stdout." ++ t)%string <> (co ++ ".tmp.stderr." ++ t)%string).
  { intros E. apply str_app_cancel_l in E. discriminate. }
  assert (N8 : (co ++ ".tmp.stdout." ++ t)%string <> (co ++ ".tmp." ++ t)%string).
  { intros E. apply str_app_cancel_l, (f_equal String.length) in E.
    rewrite !str_length_app in E. simpl in E. lia. }
  assert (N9 : (co ++ ".tmp.stderr." ++ t)%string <> (co ++ ".tmp." ++ t)%string).
  { intros E. apply str_app_cancel_l, (f_equal String.length) in E.
    rewrite !str_length_app in E. simpl in E. lia. }
  set (so := (co ++ ".tmp.stdout." ++ t)%string) in *.
  set (se := (co ++ ".tmp.stderr." ++ t)%string) in *.
  set (to := (co ++ ".tmp." ++ t)%string) in *.
  assert (Hs : (status =? 0)%Z = false) by (apply Z.eqb_neq; exact Hstatus).
  assert (Hco : forall p, String.prefix co p = false -> p <> co).
  { intros p Hp ->. pose proof (prefix_app co EmptyString) as Hx. rewrite str_app_nil_r in Hx. congruence. }
  unfold failed, cleanup_intermediates, move_file.
  destruct (w_cpp_stderr w) as [p |] eqn:Ecpp;
    [assert (P1 : p <> so) by (apply not_prefix_ne; apply (Hcpp' p eq_refl));
     assert (P2 : p <> se) by (apply not_prefix_ne; apply (Hcpp' p eq_refl));
     assert (P3 : p <> to) by (apply not_prefix_ne; apply (Hcpp' p eq_refl));
     assert (P4 : p <> co) by exact (Hco p (Hcpp' p eq_refl)) |];
    destruct obj as [o |]; sym_exec ltac:(rewrite ?Ecpp, ?Hs);
    (split; [first [right; split; [reflexivity | c5_reason]
                   | left; split; [reflexivity |];
                     do 2 eexists; split; [rewrite <- ?app_assoc; reflexivity |];
                     split; [simpl; repeat first [left; reflexivity | right] |];
                     unfold forwarded_stderr; rewrite Ecpp;
                     first [reflexivity
                           | match goal with H : w_fs w !! _ = Some _ |- _ =>
                               rewrite H; reflexivity end]]
            | split; keep_tac]).

Qed.
End C5.

(** C5 (as stated, refuted): the compiler exits with status 1 but also
    prints to stdout; to_cache does not forward its stderr nor exit with
    status 1, it falls back to running the real compiler again. *)
Lemma C5_stdout_falls_back :
  fst (to_cache cfg0 (os0 1 "noise" "error: x") ["gcc"; "-c"] (world0 ∅ None))
  = Halt HFailed
  /\ forall d, ~ In (EWriteStderr d)
                   (w_trace (snd (to_cache cfg0 (os0 1 "noise" "error: x") ["gcc"; "-c"]
                                    (world0 ∅ None)))).
Proof.
  split; [vm_compute; reflexivity |].
  intros d. vm_compute. intuition discriminate.
Qed.

(** A use of [C5_failed_compile_not_cached]: the compiler fails with status
    1 and prints an error to stderr only. *)
Lemma C5_failed_compile_not_cached_witness :
  match to_cache cfg0 (os0 1 "" "error: x") ["gcc"; "-c"] (world0 ∅ None) with
  | (o, w') =>
    ((o = Halt (HExit 1)
      /\ exists data l, w_trace w' = (w_trace (world0 ∅ None) ++ l)%list
                        /\ In (EWriteStderr data) l
                        /\ forwarded_stderr (world0 ∅ None) "error: x" = Some data)
     \/ (o = Halt (fallback_halt cfg0)
         /\ ("" <> ""
             \/ (exists p, w_cpp_stderr (world0 ∅ None) = Some p
                 /\ (w_fs (world0 ∅ None) !! p = None
                     \/ os_create_ok (os0 1 "" "error: x") ("/cache/aaaa.o.tmp.stderr." ++ cfg_tmp_string cfg0)
                        = false))
             \/ (cfg_output_obj cfg0 <> "/dev/null"
                 /\ exists e, os_move_error (os0 1 "" "error: x") ("/cache/aaaa.o.tmp." ++ cfg_tmp_string cfg0)
                                (cfg_output_obj cfg0) = Some e /\ e <> ENOENT))))
    /\ (w_fs w' !! "/cache/aaaa.o" = w_fs (world0 ∅ None) !! "/cache/aaaa.o"
        \/ w_fs w' !! "/cache/aaaa.o" = None)
    /\ (w_fs w' !! "/cache/aaaa.stderr" = w_fs (world0 ∅ None) !! "/cache/aaaa.stderr"
        \/ w_fs w' !! "/cache/aaaa.stderr" = None)
  end.
Proof.
  apply (C5_failed_compile_not_cached cfg0 (os0 1 "" "error: x") ["gcc"; "-c"]
           (world0 ∅ None) 1 "" "error: x" (Some "OBJ"));
    [reflexivity | lia | discriminate | discriminate | reflexivity
    | intros p Hp; discriminate].
Defined.

Lemma args_inv_same g argv0 st st' :
  stripped_args st' = stripped_args st -> found_c_opt st' = found_c_opt st ->
  input_charset st' = input_charset st -> args_inv g argv0 st -> args_inv g argv0 st'.
Proof. unfold args_inv; intros -> -> ->; auto. Qed.

Ltac same_tac := intros; eapply args_inv_same; [reflexivity | reflexivity | reflexivity | eassumption].

Lemma args_inv_if g argv0 (b : bool) x y :
  args_inv g argv0 x -> args_inv g argv0 y -> args_inv g argv0 (if b then x else y).
Proof. destruct b; auto. Qed.

Lemma args_inv_args_add g argv0 a st :
  (g = true -> a <> "-o") -> args_inv g argv0 st -> args_inv g argv0 (args_add a st).
Proof.
  unfold args_inv, args_add; cbn; intros Ha (Hh & Ho & Hc & Hi); repeat split.
  - destruct (stripped_args st); [discriminate | exact Hh].
  - intros Hg; rewrite in_app_iff; intros [H | [H | []]];
      [exact (Ho Hg H) | exact (Ha Hg H)].
  - intros E; apply in_app_iff; left; exact (Hc E).
  - exact Hi.
Qed.

Lemma args_inv_found_c g argv0 st :
  In "-c" (stripped_args st) -> args_inv g argv0 st -> args_inv g argv0 (set_found_c_opt st).
Proof. unfold args_inv; cbn; intros Hin (Hh & Ho & Hc & Hi); auto. Qed.

Lemma in_args_add a st : In a (stripped_args (args_add a st)).
Proof. cbn; apply in_app_iff; right; left; reflexivity. Qed.

Lemma args_inv_charset g argv0 a st :
  (g = true -> a <> "-o") -> args_inv g argv0 st -> args_inv g argv0 (set_input_charset a st).
Proof.
  unfold args_inv; cbn; intros Ha (Hh & Ho & Hc & Hi); repeat split; auto.
  intros Hg E; injection E; exact (Ha Hg).
Qed.

Lemma args_inv_found_S g argv0 st : args_inv g argv0 st -> args_inv g argv0 (set_found_S_opt st). Proof. same_tac. Qed.
Lemma args_inv_arch g argv0 st : args_inv g argv0 st -> args_inv g argv0 (set_found_arch_opt st). Proof. same_tac. Qed.
Lemma args_inv_lang g argv0 l st : args_inv g argv0 st -> args_inv g argv0 (set_explicit_language l st). Proof. same_tac. Qed.
Lemma args_inv_depf g argv0 d st : args_inv g argv0 st -> args_inv g argv0 (set_dependency_filename d st). Proof. same_tac. Qed.
Lemma args_inv_depfs g argv0 st : args_inv g argv0 st -> args_inv g argv0 (set_dependency_filename_specified st). Proof. same_tac. Qed.
Lemma args_inv_dept g argv0 st : args_inv g argv0 st -> args_inv g argv0 (set_dependency_target_specified st). Proof. same_tac. Qed.
Lemma args_inv_input g argv0 f st : args_inv g argv0 st -> args_inv g argv0 (set_input_file f st). Proof. same_tac. Qed.
Lemma args_inv_output g argv0 o st : args_inv g argv0 st -> args_inv g argv0 (set_output_obj o st). Proof. same_tac. Qed.
Lemma args_inv_gen g argv0 st : args_inv g argv0 st -> args_inv g argv0 (set_generating_dependencies st). Proof. same_tac. Qed.
Lemma args_inv_direct g argv0 st : args_inv g argv0 st -> args_inv g argv0 (clear_enable_direct st). Proof. same_tac. Qed.
Lemma args_inv_unify g argv0 st : args_inv g argv0 st -> args_inv g argv0 (clear_enable_unify st). Proof. same_tac. Qed.
Lemma args_inv_cpsc g argv0 st : args_inv g argv0 st -> args_inv g argv0 (clear_compile_preprocessed_source_code st). Proof. same_tac. Qed.

Lemma args_inv_init g argv0 ed eu cp :
  (g = true -> argv0 <> "-o") ->
  args_inv g argv0 (Build_pa_state false false false None None false false [argv0]
                      None None None false ed eu cp).
Proof.
  intros H; unfold args_inv; cbn; repeat split.
  - intros Hg [E | []]; exact (H Hg E).
  - discriminate.
  - intros _; discriminate.
Qed.

Lemma dash_I_not_o x : "-I" ++ x <> "-o".
Proof. intros H; injection H; discriminate. Qed.

Lemma dot_d_not_o x : x ++ ".d" <> "-o".
Proof.
  destruct x as [|c [|c' x]]; intros H; [discriminate H | |].
  - injection H as _ H; discriminate H.
  - injection H as _ _ H; destruct x; discriminate H.
Qed.

Lemma mrp_not_o grp cwd bd n :
  (forall p, grp cwd p <> "-o") -> n <> "-o" -> make_relative_path grp cwd bd n <> "-o".
Proof. intros Hg Hn; unfold make_relative_path; destruct bd; [destruct (starts_with _ _)|]; auto. Qed.

Lemma language_for_file_not_o f l : language_for_file f = Some l -> l <> "-o".
Proof.
  unfold language_for_file, extensions; generalize (get_extension f) as k; intros k.
  cbn [table_lookup].
  repeat (destruct (streq k _); [intros E; injection E as <-; discriminate |]).
  discriminate.
Qed.

Ltac passes_true :=
  unfold passes_next_to_args;
  repeat match goal with H : mem _ _ = true |- _ => rewrite H end;
  rewrite ?orb_true_r, ?orb_true_l; first [reflexivity | vm_compute; reflexivity].

(** [x <> "-o"] for the strings process_args copies: the option itself,
    a rewritten path, a [-I] path, a dependency file name, or the next
    token, which [Hn] guards. *)
Ltac not_o Hg Hn :=
  first
  [ apply dash_I_not_o
  | apply dot_d_not_o
  | match goal with
    | H : language_for_file _ = Some ?l |- ?l <> _ => exact (language_for_file_not_o _ _ H)
    end
  | apply mrp_not_o; [exact Hg | not_o Hg Hn]
  | let E := fresh in
    intro E; subst;
    first
    [ discriminate
    | congruence
    | match goal with
      | H : _ = true |- _ => solve [vm_compute in H; discriminate H]
      | H : _ = false |- _ => solve [vm_compute in H; discriminate H]
      end
    | exfalso; apply Hn; [passes_true | first [reflexivity | congruence]] ] ].

Ltac not_o_g Hg Hn :=
  let Hgt := fresh "Hgt" in
  let Hg' := fresh "Hg" in
  let Hn' := fresh "Hn" in
  intros Hgt; pose proof (Hg Hgt) as Hg'; pose proof (Hn Hgt) as Hn'; not_o Hg' Hn'.

Ltac inv_leaf Hg Hn :=
  repeat match goal with
  | |- args_inv _ _ (if _ then _ else _) => apply args_inv_if
  | |- args_inv _ _ (let x := _ in _) => cbv zeta
  | |- args_inv _ _ (set_found_S_opt _) => apply args_inv_found_S
  | |- args_inv _ _ (set_found_arch_opt _) => apply args_inv_arch
  | |- args_inv _ _ (set_explicit_language _ _) => apply args_inv_lang
  | |- args_inv _ _ (set_dependency_filename _ _) => apply args_inv_depf
  | |- args_inv _ _ (set_dependency_filename_specified _) => apply args_inv_depfs
  | |- args_inv _ _ (set_dependency_target_specified _) => apply args_inv_dept
  | |- args_inv _ _ (set_input_file _ _) => apply args_inv_input
  | |- args_inv _ _ (set_output_obj _ _) => apply args_inv_output
  | |- args_inv _ _ (set_generating_dependencies _) => apply args_inv_gen
  | |- args_inv _ _ (clear_enable_direct _) => apply args_inv_direct
  | |- args_inv _ _ (clear_enable_unify _) => apply args_inv_unify
  | |- args_inv _ _ (clear_compile_preprocessed_source_code _) => apply args_inv_cpsc
  | |- args_inv _ _ (set_found_c_opt _) => apply args_inv_found_c; [apply in_args_add |]
  | |- args_inv _ _ (args_add _ _) => apply args_inv_args_add; [not_o_g Hg Hn |]
  | |- args_inv _ _ (set_input_charset _ _) => apply args_inv_charset; [not_o_g Hg Hn |]
  | |- args_inv _ _ (match ?o with _ => _ end) => destruct o
  end; try eassumption.

Lemma process_arg_inv g grp cwd bd stat argv0 i a next st st' :
  (g = true -> forall p, grp cwd p <> "-o") ->
  (g = true -> passes_next_to_args a = true -> next <> Some "-o") ->
  args_inv g argv0 st ->
  process_arg grp cwd bd stat argv0 i a next st = StepNext st'
  \/ process_arg grp cwd bd stat argv0 i a next st = StepSkipNext st' ->
  args_inv g argv0 st'.
Proof.
  intros Hg Hn Hinv Hstep; cbv beta delta [process_arg] in Hstep.
  destruct Hstep as [Hstep | Hstep];
  repeat match type of Hstep with
  | (let x := ?v in @?f x) = ?r =>
    let s := fresh "st" in
    let Hs := fresh "Hinv" in
    assert (Hs : args_inv g argv0 v) by (inv_leaf Hg Hn);
    change (f v = r) in Hstep; set (s := v) in Hstep, Hs; clearbody s; cbv beta in Hstep
  | (match ?x with _ => _ end) = _ => let E := fresh "E" in destruct x eqn:E
  end; try discriminate Hstep; injection Hstep as <-;
  repeat match goal with E : streq ?x ?y = true |- _ => apply String.eqb_eq in E; subst x end;
  inv_leaf Hg Hn.
Qed.

Lemma o_not_passed_cons a rest :
  o_not_passed (a :: rest) = true ->
  o_not_passed rest = true /\ (passes_next_to_args a = true -> head rest <> Some "-o").
Proof.
  destruct rest as [|b rest]; cbn [o_not_passed head].
  - intros _; split; [reflexivity | congruence].
  - intros H; apply andb_true_iff in H as [H1 H2]; split; [exact H2 |].
    intros Hp E; injection E as ->; rewrite Hp in H1; discriminate H1.
Qed.

Lemma pa_loop_inv g grp cwd bd stat argv0 :
  (g = true -> forall p, grp cwd p <> "-o") ->
  forall n args i st st', (List.length args <= n)%nat ->
  (g = true -> o_not_passed args = true) ->
  args_inv g argv0 st -> pa_loop grp cwd bd stat argv0 i args st = Some st' ->
  args_inv g argv0 st'.
Proof.
  intros Hg n; induction n as [|n IH]; intros args i st st' Hlen Hop Hinv Hl;
    destruct args as [|a rest]; cbn in Hlen.
  - injection Hl as <-; exact Hinv.
  - lia.
  - injection Hl as <-; exact Hinv.
  - assert (Hop1 : g = true -> o_not_passed rest = true)
      by (intros Hgt; exact (proj1 (o_not_passed_cons a rest (Hop Hgt)))).
    assert (Hn : g = true -> passes_next_to_args a = true -> head rest <> Some "-o")
      by (intros Hgt; exact (proj2 (o_not_passed_cons a rest (Hop Hgt)))).
    cbn [pa_loop] in Hl.
    destruct (process_arg grp cwd bd stat argv0 i a (head rest) st) as [|st1|st1] eqn:Hs;
      [discriminate Hl | |].
    + apply (IH rest (S i) st1 st'); [lia | exact Hop1 | | exact Hl].
      eapply process_arg_inv; [exact Hg | exact Hn | exact Hinv | left; exact Hs].
    + assert (Hinv1 : args_inv g argv0 st1)
        by (eapply process_arg_inv; [exact Hg | exact Hn | exact Hinv | right; exact Hs]).
      destruct rest as [|b rest'].
      * injection Hl as <-; exact Hinv1.
      * cbn in Hlen.
        apply (IH rest' (S (S i)) st1 st'); [lia | | exact Hinv1 | exact Hl].
        intros Hgt; exact (proj1 (o_not_passed_cons b rest' (Hop1 Hgt))).
Qed.

Lemma not_in_o_nil : ~ In "-o" [].
Proof. intros []. Qed.

Lemma not_in_o_cons x l : x <> "-o" -> ~ In "-o" l -> ~ In "-o" (x :: l).
Proof. intros Hx Hl [E | E]; [exact (Hx E) | exact (Hl E)]. Qed.

Lemma not_in_o_app l1 l2 : ~ In "-o" l1 -> ~ In "-o" l2 -> ~ In "-o" (l1 ++ l2).
Proof. intros H1 H2 H; apply in_app_iff in H as [H | H]; auto. Qed.

Lemma list_inv_of_args_inv g argv0 st :
  args_inv g argv0 st -> found_c_opt st = true -> list_inv g argv0 (stripped_args st).
Proof. intros (Hh & Ho & Hc & _) Hf; split; [exact Hh | split; [exact (Hc Hf) | exact Ho]]. Qed.

Lemma list_inv_snoc g argv0 l x :
  (g = true -> x <> "-o") -> list_inv g argv0 l -> list_inv g argv0 (l ++ [x]).
Proof.
  intros Hx (Hh & Hc & Ho); split; [| split].
  - destruct l; [discriminate Hh | exact Hh].
  - apply in_app_iff; left; exact Hc.
  - intros Hg; apply not_in_o_app; [exact (Ho Hg) | apply not_in_o_cons; [exact (Hx Hg) | exact not_in_o_nil]].
Qed.

Lemma lists_ok g argv0 sa l1 l2 :
  list_inv g argv0 sa ->
  (g = true -> ~ In "-o" l1) -> (g = true -> ~ In "-o" l2) ->
  head (sa ++ l1) = Some argv0 /\ head (sa ++ l2) = Some argv0
  /\ In "-c" (sa ++ l1) /\ In "-c" (sa ++ l2)
  /\ (g = true -> ~ In "-o" (sa ++ l1) /\ ~ In "-o" (sa ++ l2)).
Proof.
  intros (Hh & Hc & Ho) H1 H2.
  assert (Hhd : forall l, head (sa ++ l) = Some argv0)
    by (intros l; destruct sa; [discriminate Hh | exact Hh]).
  assert (Hin : forall l, In "-c" (sa ++ l)) by (intros l; apply in_app_iff; left; exact Hc).
  split; [apply Hhd | split; [apply Hhd | split; [apply Hin | split; [apply Hin |]]]].
  intros Hg; split; apply not_in_o_app; auto.
Qed.

Lemma lists_ok_nil g argv0 sa l1 :
  list_inv g argv0 sa -> (g = true -> ~ In "-o" l1) ->
  head (sa ++ l1) = Some argv0 /\ head sa = Some argv0
  /\ In "-c" (sa ++ l1) /\ In "-c" sa
  /\ (g = true -> ~ In "-o" (sa ++ l1) /\ ~ In "-o" sa).
Proof.
  intros Hi H1; rewrite <- (app_nil_r sa) at 2 4 6.
  apply lists_ok; auto; intros _ [].
Qed.

Lemma not_in_o_charset g argv0 S :
  args_inv g argv0 S -> g = true ->
  ~ In "-o" (match input_charset S with Some c => [c] | None => [] end).
Proof.
  intros (_ & _ & _ & Hi) Hg; specialize (Hi Hg).
  destruct (input_charset S) as [c|]; [|intros []].
  apply not_in_o_cons; [congruence | intros []].
Qed.

Ltac head_destruct H :=
  match type of H with
  | (match ?x with _ => _ end) = _ =>
    match x with
    | context [match ?y with _ => _ end] =>
      lazymatch y with
      | context [match _ with _ => _ end] => fail
      | _ => let E := fresh "E" in destruct y eqn:E
      end
    | _ => let E := fresh "E" in destruct x eqn:E
    end
  end; cbv beta iota in H.

Lemma process_args_lists g grp cwd bd stat env argv0 args ed eu cp pp cc input out lang iext st :
  (g = true -> (forall p, grp cwd p <> "-o") /\ argv0 <> "-o"
               /\ o_not_passed args = true /\ out <> "-o") ->
  process_args grp cwd bd stat env argv0 args ed eu cp
    = PAClassified pp cc input out lang iext st ->
  head pp = Some argv0 /\ head cc = Some argv0 /\ In "-c" pp /\ In "-c" cc
  /\ (g = true -> ~ In "-o" pp /\ ~ In "-o" cc).
Proof.
  intros Hguard H; cbv beta zeta delta [process_args] in H.
  assert (Hg : g = true -> forall p, grp cwd p <> "-o") by (intros Hgt; apply (Hguard Hgt)).
  assert (Hn : g = true -> True -> False -> False) by auto.
  assert (Hout : g = true -> out <> "-o") by (intros Hgt; apply (Hguard Hgt)).
  destruct (pa_loop grp cwd bd stat argv0 1 args _) as [st1|] eqn:Hl; [|discriminate H].
  apply (pa_loop_inv g grp cwd bd stat argv0 Hg (List.length args)) in Hl;
    [| lia | intros Hgt; apply (Hguard Hgt) | apply args_inv_init; intros Hgt; apply (Hguard Hgt)].
  cbv beta iota in H.
  repeat head_destruct H; try discriminate H;
  injection H as <- <- <- <- <- <- <-;
  (first [apply lists_ok_nil | apply lists_ok];
   [ repeat (apply list_inv_snoc; [first [exact Hout | not_o_g Hg Hn] |]);
     apply list_inv_of_args_inv; [exact Hl | apply negb_false_iff; assumption]
   | .. ]);
  let Hgt := fresh "Hgt" in intros Hgt;
  repeat first
    [ apply not_in_o_nil
    | apply not_in_o_app
    | apply (not_in_o_charset g argv0 st1 Hl Hgt)
    | apply not_in_o_cons; [generalize Hgt; not_o_g Hg Hn |] ].
Qed.

(** C6 (amended).  For every invocation that process_args classifies, both
    argument lists start with [argv[0]] and contain [-c] (classification
    requires a [-c] option, which is kept).  They contain no [-o] token
    when no [-o] is passed on by [--ccache-skip], a path option or an
    option taking an argument, the output name is not [-o], [argv[0]] is
    not [-o] and get_relative_path never returns [-o]. *)
Theorem C6_classified_argument_lists grp cwd bd stat env argv0 args ed eu cp
    pp cc input out lang iext st :
  process_args grp cwd bd stat env argv0 args ed eu cp
    = PAClassified pp cc input out lang iext st ->
  head pp = Some argv0 /\ head cc = Some argv0 /\ In "-c" pp /\ In "-c" cc
  /\ ((forall p, grp cwd p <> "-o") -> argv0 <> "-o" -> o_not_passed args = true ->
      out <> "-o" -> ~ In "-o" pp /\ ~ In "-o" cc).
Proof.
  intros H.
  destruct (process_args_lists false grp cwd bd stat env argv0 args ed eu cp
              pp cc input out lang iext st (fun E => False_ind _ (diff_false_true E)) H)
    as (H1 & H2 & H3 & H4 & _).
  split; [exact H1 | split; [exact H2 | split; [exact H3 | split; [exact H4 |]]]].
  intros Hg Ha Hop Hout.
  exact (proj2 (proj2 (proj2 (proj2 (process_args_lists true grp cwd bd stat env argv0 args
           ed eu cp pp cc input out lang iext st (fun _ => conj Hg (conj Ha (conj Hop Hout))) H))))
         eq_refl).
Qed.

(** C6 (as stated, refuted): [--ccache-skip -o] copies the [-o] token into
    both argument lists. *)
Lemma C6_skip_passes_o :
  match process_args (fun _ p => p) "/" None
          (fun p => if streq p "foo.c" then Some true else None) None
          "gcc" ["-c"; "foo.c"; "--ccache-skip"; "-o"] true true true with
  | PAClassified pp cc _ _ _ _ _ => mem "-o" pp && mem "-o" cc = true
  | _ => False
  end.
Proof. vm_compute; reflexivity. Qed.

(** A use of [C6_classified_argument_lists] on [gcc -c foo.c -o foo.o]. *)
Lemma C6_classified_argument_lists_witness :
  exists st,
    process_args (fun _ _ : string => "rel") "/" None
      (fun p => if streq p "foo.c" then Some true else None) None
      "gcc" ["-c"; "foo.c"; "-o"; "foo.o"] true true true
    = PAClassified ["gcc"; "-c"] ["gcc"; "-c"] "foo.c" "foo.o" "c" "i" st
    /\ head ["gcc"; "-c"] = Some "gcc" /\ head ["gcc"; "-c"] = Some "gcc"
    /\ In "-c" ["gcc"; "-c"] /\ In "-c" ["gcc"; "-c"]
    /\ ((forall p, (fun _ _ : string => "rel") "/" p <> "-o") -> "gcc" <> "-o"
        -> o_not_passed ["-c"; "foo.c"; "-o"; "foo.o"] = true -> "foo.o" <> "-o"
        -> ~ In "-o" ["gcc"; "-c"] /\ ~ In "-o" ["gcc"; "-c"]).
Proof.
  eexists; split; [vm_compute; reflexivity |].
  eapply (C6_classified_argument_lists (fun _ _ : string => "rel") "/" None
            (fun p => if streq p "foo.c" then Some true else None) None
            "gcc" ["-c"; "foo.c"; "-o"; "foo.o"] true true true
            ["gcc"; "-c"] ["gcc"; "-c"] "foo.c" "foo.o" "c" "i").
  vm_compute; reflexivity.
Defined.
(** explicit_language and input_file, unchanged from [st] to [st']. *)
Ltac lang_frame st :=
  repeat match goal with
  | |- context [if ?b then _ else _] => destruct b
  | |- context [match ?o with Some _ => _ | None => _ end] => destruct o
  end;
  cbn [explicit_language pa_input_file set_found_c_opt set_found_S_opt set_found_arch_opt
       set_input_charset set_dependency_filename set_dependency_filename_specified
       set_dependency_target_specified args_add set_output_obj set_generating_dependencies
       clear_enable_direct clear_enable_unify clear_compile_preprocessed_source_code];
  match goal with
  | H : explicit_language ?s = _ /\ pa_input_file ?s = _ |- _ => exact H
  | |- _ => split; reflexivity
  end.

Lemma process_arg_lang grp cwd bd stat argv0 i a next st st' :
  process_arg grp cwd bd stat argv0 i a next st = StepNext st'
  \/ process_arg grp cwd bd stat argv0 i a next st = StepSkipNext st' ->
  explicit_language st'
  = match pa_input_file st with
    | None => if streq a "-x" then next
              else if starts_with "-x" a then Some (str_drop 2 a)
              else explicit_language st
    | Some _ => explicit_language st
    end
  /\ (pa_input_file st <> None -> pa_input_file st' = pa_input_file st).
Proof.
  intros Hstep; cbv beta delta [process_arg] in Hstep.
  destruct Hstep as [Hstep | Hstep];
  repeat match type of Hstep with
  | (let x := ?v in @?f x) = ?r =>
    let s := fresh "st" in
    let Hs := fresh "Hk" in
    assert (Hs : explicit_language v = explicit_language st /\ pa_input_file v = pa_input_file st)
      by (lang_frame st);
    change (f v = r) in Hstep; set (s := v) in Hstep, Hs; clearbody s; cbv beta in Hstep
  | (match ?x with _ => _ end) = _ => let E := fresh "E" in destruct x eqn:E
  end; try discriminate Hstep; injection Hstep as <-.
  all: repeat match goal with E : streq ?x ?y = true |- _ => apply String.eqb_eq in E; subst x end;
    repeat match goal with H : _ /\ _ |- _ => destruct H end;
    repeat match goal with E : ?b = false |- context [?b] => rewrite E | E : ?b = true |- context [?b] => rewrite E end;
    repeat match goal with |- context [if ?b then _ else _] => destruct b eqn:? end;
    cbn [explicit_language pa_input_file set_found_c_opt set_found_S_opt set_found_arch_opt
       set_input_charset set_dependency_filename set_dependency_filename_specified
       set_dependency_target_specified args_add set_output_obj set_generating_dependencies
       clear_enable_direct clear_enable_unify clear_compile_preprocessed_source_code
       set_explicit_language set_input_file];
    repeat match goal with H : pa_input_file ?s = pa_input_file ?t |- context [pa_input_file ?s] => rewrite H end;
    repeat match goal with H : explicit_language ?s = explicit_language ?t |- context [explicit_language ?s] => rewrite H end;
    destruct (pa_input_file st) eqn:?; cbn [explicit_language pa_input_file set_explicit_language set_input_file];
    try solve
      [ split; [reflexivity | congruence]
      | exfalso; congruence
      | exfalso; match goal with
                 | E : ?b = true |- _ => solve [vm_compute in E; discriminate E]
                 | E : ?b = false |- _ => solve [vm_compute in E; discriminate E]
                 end ].
Qed.

Lemma process_args_lang grp cwd bd stat env argv0 args ed eu cp pp cc input out lang iext st :
  process_args grp cwd bd stat env argv0 args ed eu cp
    = PAClassified pp cc input out lang iext st ->
  match explicit_language st with
  | Some l => if streq l "none" then language_for_file input = Some lang
              else language_is_supported l = true /\ lang = l
  | None => language_for_file input = Some lang
  end.
Proof.
  intros H; cbv beta zeta delta [process_args] in H.
  destruct (pa_loop grp cwd bd stat argv0 1 args _) as [st1|] eqn:Hl; [|discriminate H].
  cbv beta iota in H.
  repeat head_destruct H; try discriminate H;
  injection H as _ _ <- _ <- _ <-;
  cbn [explicit_language set_input_charset set_dependency_filename
       set_dependency_filename_specified set_dependency_target_specified args_add
       set_output_obj set_generating_dependencies];
  repeat match goal with E : explicit_language _ = _ |- _ => rewrite E end;
  repeat match goal with E : ?b = _ |- context [?b] => rewrite E end;
  try solve [split; reflexivity | reflexivity | assumption].
Qed.

Lemma process_args_unsupported grp cwd bd stat env argv0 args ed eu cp st1 l :
  pa_loop grp cwd bd stat argv0 1 args
    (Build_pa_state false false false None None false false [argv0] None None None false
       ed eu cp) = Some st1 ->
  explicit_language st1 = Some l -> streq l "none" = false ->
  language_is_supported l = false ->
  process_args grp cwd bd stat env argv0 args ed eu cp = PAGaveUp.
Proof.
  intros Hl Hx Hn Hs; cbv beta zeta delta [process_args]; rewrite Hl.
  cbv beta iota; destruct (pa_input_file st1); [|reflexivity].
  rewrite Hx; cbv beta iota; rewrite Hn; cbv beta iota; rewrite Hs; reflexivity.
Qed.

(** C7.  The language of a classified invocation comes from [-x]:
    (1) during the argument loop, a spaced [-x lang] or joined [-xlang]
    option seen while no input file has been found sets the explicit
    language, one seen after the input file changes nothing, every other
    token leaves it unchanged, and once found the input file stays;
    (2) for a classified invocation with final explicit language [l]:
    [l = none] or no [-x] means the language of the input file's
    extension, otherwise [l] is in the supported table and is the language
    used; (3) an explicit language other than [none] outside the supported
    table makes process_args give up, i.e. fall back to the real
    compiler. *)
Theorem C7_explicit_language grp cwd bd stat env argv0 :
  (forall i a next st st',
     process_arg grp cwd bd stat argv0 i a next st = StepNext st'
     \/ process_arg grp cwd bd stat argv0 i a next st = StepSkipNext st' ->
     explicit_language st'
     = match pa_input_file st with
       | None => if streq a "-x" then next
                 else if starts_with "-x" a then Some (str_drop 2 a)
                 else explicit_language st
       | Some _ => explicit_language st
       end
     /\ (pa_input_file st <> None -> pa_input_file st' = pa_input_file st))
  /\ (forall args ed eu cp pp cc input out lang iext st,
        process_args grp cwd bd stat env argv0 args ed eu cp
          = PAClassified pp cc input out lang iext st ->
        match explicit_language st with
        | Some l => if streq l "none" then language_for_file input = Some lang
                    else language_is_supported l = true /\ lang = l
        | None => language_for_file input = Some lang
        end)
  /\ (forall args ed eu cp st1 l,
        pa_loop grp cwd bd stat argv0 1 args
          (Build_pa_state false false false None None false false [argv0] None None None
             false ed eu cp) = Some st1 ->
        explicit_language st1 = Some l -> streq l "none" = false ->
        language_is_supported l = false ->
        process_args grp cwd bd stat env argv0 args ed eu cp = PAGaveUp).
Proof.
  split; [| split].
  - intros i a next st st'; apply process_arg_lang.
  - intros args ed eu cp pp cc input out lang iext st; apply process_args_lang.
  - intros args ed eu cp st1 l; apply process_args_unsupported.
Qed.

(** The language rule on two command lines: [gcc -x c++ -c foo.c -xnone] compiles
    [foo.c] as C++ (the [-xnone] after the input file is ignored), and
    [gcc -xfoo -c foo.c] falls back to the real compiler. *)
Lemma C7_explicit_language_witness :
  match process_args (fun _ _ : string => "rel") "/" None
          (fun p => if streq p "foo.c" then Some true else None) None
          "gcc" ["-x"; "c++"; "-c"; "foo.c"; "-xnone"] true true true with
  | PAClassified _ _ input _ lang _ st =>
    lang = "c++"
    /\ match explicit_language st with
       | Some l => if streq l "none" then language_for_file input = Some lang
                   else language_is_supported l = true /\ lang = l
       | None => language_for_file input = Some lang
       end
  | _ => False
  end
  /\ match pa_loop (fun _ _ : string => "rel") "/" None
             (fun p => if streq p "foo.c" then Some true else None) "gcc" 1
             ["-xfoo"; "-c"; "foo.c"]
             (Build_pa_state false false false None None false false ["gcc"] None None None
                false true true true) with
     | Some st1 =>
       explicit_language st1 = Some "foo"
       /\ process_args (fun _ _ : string => "rel") "/" None
            (fun p => if streq p "foo.c" then Some true else None) None
            "gcc" ["-xfoo"; "-c"; "foo.c"] true true true = PAGaveUp
     | None => False
     end.
Proof.
  destruct (C7_explicit_language (fun _ _ : string => "rel") "/" None
              (fun p => if streq p "foo.c" then Some true else None) None "gcc")
    as (_ & P2 & P3).
  split.
  - generalize (P2 ["-x"; "c++"; "-c"; "foo.c"; "-xnone"] true true true).
    destruct (process_args _ _ _ _ _ _ ["-x"; "c++"; "-c"; "foo.c"; "-xnone"] true true true)
      as [| |pp cc input out lang iext st] eqn:E;
      vm_compute in E; try discriminate E.
    injection E as <- <- <- <- <- <- <-; intros Q.
    split; [reflexivity | exact (Q _ _ _ _ _ _ _ eq_refl)].
  - generalize (P3 ["-xfoo"; "-c"; "foo.c"] true true true).
    destruct (pa_loop (fun _ _ : string => "rel") "/" None
                (fun p => if streq p "foo.c" then Some true else None) "gcc" 1
                ["-xfoo"; "-c"; "foo.c"]
                (Build_pa_state false false false None None false false ["gcc"] None None
                   None false true true true)) as [st1|] eqn:E;
      vm_compute in E; try discriminate E.
    injection E as <-; intros Q.
    split; [vm_compute; reflexivity |].
    apply (Q _ "foo" eq_refl); vm_compute; reflexivity.
Defined.

Lemma pp_loop_hash_indep grp cwd bd in1 in2 t1 t2 sl1 sl2 si1 si2 hs1 hs2 fuel data :
  forall p q s1 s2,
  scan_hash (pp_loop grp cwd bd in1 t1 sl1 si1 hs1 fuel data p q s1)
  = scan_hash (pp_loop grp cwd bd in2 t2 sl2 si2 hs2 fuel data p q s2).
Proof.
  induction fuel as [|fuel IH]; intros p q s1 s2; cbn [pp_loop]; [reflexivity |].
  destruct (q <? String.length data - 7)%nat; [| reflexivity].
  destruct (is_line_marker data q); [| apply IH].
  destruct (String.length data <=? S (skip_to_quote data q (String.length data)))%nat;
    [reflexivity |].
  cbn [scan_hash]; f_equal; apply IH.
Qed.

(** C8.  The items process_preprocessed_file feeds to the hash depend only
    on the preprocessed output, the base directory, the working directory
    and get_relative_path: not on the globals it starts from nor on what
    stat or the source hashing report for the include files. *)
Theorem C8_preprocessed_hash_deterministic grp cwd bd in1 in2 t1 t2 sl1 sl2 si1 si2 hs1 hs2
    contents s1 s2 :
  scan_hash (process_preprocessed_file grp cwd bd in1 t1 sl1 si1 hs1 contents s1)
  = scan_hash (process_preprocessed_file grp cwd bd in2 t2 sl2 si2 hs2 contents s2).
Proof.
  destruct contents as [data|]; [| reflexivity].
  apply pp_loop_hash_indep.
Qed.

(** C9 (refuted).  process_preprocessed_file hands remember_include_file
    the path after base-directory rewriting together with the length of the
    quoted span before rewriting.  With base directory [/home/u], the line
    marker for [/home/u/<x>] yields the path [<x>] (3 characters) with
    [path_len] 11, and the angle-bracket test, seeing [path[0] = '<'],
    reads [path[10]], past the end of the string. *)
Lemma C9_shortened_path_overread :
  scan_calls (process_preprocessed_file get_relative_path_spec "/home/u" (Some "/home/u")
                "main.c" 0 0 (fun _ => None) (fun _ _ => (0%Z, Build_file_hash "" 0))
                (Some c9_data) {| enable_direct := true; included_files := None |})
  = [("<x>", 11%nat)]
  /\ bracket_test_reads "<x>" 11 = [0%nat; 10%nat]
  /\ (String.length "<x>" < 10)%nat.
Proof. split; [vm_compute; reflexivity | split; [vm_compute; reflexivity | cbn; lia]]. Qed.

(** C10.  When from_cache reaches the copy of the cached object (the
    object, and the dependency file when one is produced, exist in the
    cache) and the copy or link to the output fails with errno [e]: if [e]
    is [ENOENT], from_cache counts a missing file, unlinks the output and
    the cached stderr, object and dependency file, and returns to its
    caller; any other [e] ends the run in the fallback executor.  The same
    holds for a failed copy of the cached dependency file, which also
    unlinks the dependency output. *)
Theorem C10_enoent_returns_to_caller cfg os mode put w :
  (negb (is_compiled_mode mode) && cfg_env_recache cfg) = false ->
  is_Some (w_fs w !! w_cached_obj w) ->
  ((cfg_generating_dependencies cfg && is_direct_mode mode) = true ->
   is_Some (w_fs w !! w_cached_dep w)) ->
  (forall e w2,
     streq (cfg_output_obj cfg) "/dev/null" = false ->
     copy_or_link cfg os (w_cached_obj w) (cfg_output_obj cfg)
       (snd (unlink (cfg_output_obj cfg) w)) = (Ret (Some e), w2) ->
     match from_cache cfg os mode put w with
     | (r, w') =>
       if (e =? ENOENT)%Z then
         r = Ret tt
         /\ w_trace w' = (w_trace w2 ++ [EStats "missing"; EUnlink (cfg_output_obj cfg);
              EUnlink (w_cached_stderr w); EUnlink (w_cached_obj w); EUnlink (w_cached_dep w)])%list
         /\ w_fs w' = delete (w_cached_dep w) (delete (w_cached_obj w)
              (delete (w_cached_stderr w) (delete (cfg_output_obj cfg) (w_fs w2))))
       else r = Halt (fallback_halt cfg)
     end)
  /\ (forall e w2 w4,
     (cfg_generating_dependencies cfg && is_direct_mode mode) = true ->
     (streq (cfg_output_obj cfg) "/dev/null" = true /\ w2 = w
      \/ streq (cfg_output_obj cfg) "/dev/null" = false
         /\ copy_or_link cfg os (w_cached_obj w) (cfg_output_obj cfg)
              (snd (unlink (cfg_output_obj cfg) w)) = (Ret None, w2)) ->
     copy_or_link cfg os (w_cached_dep w) (cfg_output_dep cfg)
       (snd (unlink (cfg_output_dep cfg) w2)) = (Ret (Some e), w4) ->
     match from_cache cfg os mode put w with
     | (r, w') =>
       if (e =? ENOENT)%Z then
         r = Ret tt
         /\ w_trace w' = (w_trace w4 ++ [EStats "missing"; EUnlink (cfg_output_obj cfg);
              EUnlink (cfg_output_dep cfg); EUnlink (w_cached_stderr w);
              EUnlink (w_cached_obj w); EUnlink (w_cached_dep w)])%list
         /\ w_fs w' = delete (w_cached_dep w) (delete (w_cached_obj w)
              (delete (w_cached_stderr w) (delete (cfg_output_dep cfg)
              (delete (cfg_output_obj cfg) (w_fs w4)))))
       else r = Halt (fallback_halt cfg)
     end).
Proof.
  intros Hrc [od Hobj] Hdep. split.
  - intros e w2 Hnull Hcopy.
    unfold from_cache. rewrite Hrc.
    cbv beta iota zeta delta [mbind gets file_exists mret skip].
    rewrite Hobj. cbv beta iota delta [negb].
    destruct (cfg_generating_dependencies cfg && is_direct_mode mode) eqn:Hpd.
    + destruct (Hdep eq_refl) as [dd Hd]. cbv beta iota delta [negb]. rewrite Hd.
      rewrite Hnull. cbv beta iota delta [mbind unlink modify] in *. cbn [snd] in Hcopy.
      rewrite Hcopy.
      destruct (e =? ENOENT)%Z eqn:He.
      * cbv beta iota delta [mbind stats_update emit unlink modify]. cbn.
        split; [reflexivity | split; [rewrite <- !app_assoc; reflexivity | reflexivity]].
      * cbv beta iota delta [mbind stats_update emit modify failed halt_with].
        unfold cleanup_intermediates, gets, mbind, skip, mret, unlink, modify.
        destruct (w_i_tmpfile _); [destruct (cfg_direct_i_file cfg) |]; cbn;
          (destruct (w_cpp_stderr _); reflexivity).
    + cbv beta iota delta [negb].
      rewrite Hnull. cbv beta iota delta [mbind unlink modify] in *. cbn [snd] in Hcopy.
      rewrite Hcopy.
      destruct (e =? ENOENT)%Z eqn:He.
      * cbv beta iota delta [mbind stats_update emit unlink modify]. cbn.
        split; [reflexivity | split; [rewrite <- !app_assoc; reflexivity | reflexivity]].
      * cbv beta iota delta [mbind stats_update emit modify failed halt_with].
        unfold cleanup_intermediates, gets, mbind, skip, mret, unlink, modify.
        destruct (w_i_tmpfile _); [destruct (cfg_direct_i_file cfg) |]; cbn;
          (destruct (w_cpp_stderr _); reflexivity).
  - intros e w2 w4 Hpd Hobjcopy Hcopy.
    destruct (Hdep Hpd) as [dd Hd].
    unfold from_cache. rewrite Hrc.
    cbv beta iota zeta delta [mbind gets file_exists mret skip].
    rewrite Hobj. cbv beta iota delta [negb]. rewrite Hpd. cbv beta iota delta [negb]. rewrite Hd. cbv beta iota delta [negb].
    cbv beta iota delta [unlink modify] in Hcopy. cbn [snd] in Hcopy.
    destruct Hobjcopy as [[Hnull ->] | [Hnull Hc]].
    + rewrite Hnull. cbv beta iota delta [mbind unlink modify]. rewrite Hcopy.
      destruct (e =? ENOENT)%Z eqn:He.
      * cbv beta iota delta [mbind stats_update emit unlink modify]. cbn.
        split; [reflexivity | split; [rewrite <- !app_assoc; reflexivity | reflexivity]].
      * cbv beta iota delta [mbind stats_update emit modify failed halt_with].
        unfold cleanup_intermediates, gets, mbind, skip, mret, unlink, modify.
        destruct (w_i_tmpfile _); [destruct (cfg_direct_i_file cfg) |]; cbn;
          (destruct (w_cpp_stderr _); reflexivity).
    + rewrite Hnull. cbv beta iota delta [mbind unlink modify] in *. cbn [snd] in Hc.
      rewrite Hc. cbv beta iota. rewrite Hcopy.
      destruct (e =? ENOENT)%Z eqn:He.
      * cbv beta iota delta [mbind stats_update emit unlink modify]. cbn.
        split; [reflexivity | split; [rewrite <- !app_assoc; reflexivity | reflexivity]].
      * cbv beta iota delta [mbind stats_update emit modify failed halt_with].
        unfold cleanup_intermediates, gets, mbind, skip, mret, unlink, modify.
        destruct (w_i_tmpfile _); [destruct (cfg_direct_i_file cfg) |]; cbn;
          (destruct (w_cpp_stderr _); reflexivity).
Qed.

(** A cached object that disappears before it is copied: from_cache
    returns after cleaning up the cache entry. *)
Lemma C10_enoent_returns_to_caller_witness :
  let w2 := snd (copy_or_link cfg0 os_enoent "/cache/aaaa.o" "foo.o"
                   (snd (unlink "foo.o" hit_world))) in
  match from_cache cfg0 os_enoent FROMCACHE_CPP_MODE true hit_world with
  | (r, w') =>
    r = Ret tt
    /\ w_trace w' = (w_trace w2 ++ [EStats "missing"; EUnlink "foo.o";
         EUnlink "/cache/aaaa.stderr"; EUnlink "/cache/aaaa.o"; EUnlink "/cache/aaaa.d"])%list
    /\ w_fs w' = delete "/cache/aaaa.d" (delete "/cache/aaaa.o"
         (delete "/cache/aaaa.stderr" (delete "foo.o" (w_fs w2))))
  end.
Proof.
  intros w2.
  destruct (C10_enoent_returns_to_caller cfg0 os_enoent FROMCACHE_CPP_MODE true hit_world)
    as [P1 _].
  - reflexivity.
  - exists "OBJ". vm_compute. reflexivity.
  - vm_compute. discriminate.
  - apply (P1 ENOENT w2); [reflexivity | vm_compute; reflexivity].
Defined.

(* ================================================================== *)
(** ** Further properties of ccache.c *)

Ltac streq_subst :=
  repeat match goal with
  | E : streq _ _ = true |- _ => apply String.eqb_eq in E; subst
  end.

Lemma i_extension_cases l e :
  i_extension_for_language l = Some e ->
  (l = "c" /\ e = ".i") \/ (l = "cpp-output" /\ e = ".i") \/ (l = "c++" /\ e = ".ii")
  \/ (l = "c++-cpp-output" /\ e = ".ii") \/ (l = "objective-c" /\ e = ".mi")
  \/ (l = "objc-cpp-output" /\ e = ".mi") \/ (l = "objective-c++" /\ e = ".mii")
  \/ (l = "objc++-cpp-output" /\ e = ".mii").
Proof.
  unfold i_extension_for_language, languages. cbn [table_lookup].
  intros H. repeat match type of H with
  | (if ?b then _ else _) = _ => let E := fresh "E" in destruct b eqn:E
  end; try discriminate H; injection H as <-; streq_subst; tauto.
Qed.

(** X1. For every language with an entry in the languages table, the
    extension of its preprocessed output ([i_extension_for_language]) is
    mapped by [language_for_file] to a language that is already
    preprocessed and whose preprocessed extension is that same
    extension. *)
Theorem i_extension_language_preprocessed l e :
  i_extension_for_language l = Some e ->
  match language_for_file e with
  | Some l' => language_is_preprocessed l' = true /\ i_extension_for_language l' = Some e
  | None => False
  end.
Proof.
  intros H. apply i_extension_cases in H.
  repeat destruct H as [H|H]; destruct H as [-> ->]; vm_compute; split; reflexivity.
Qed.

Lemma i_extension_roundtrip l e :
  i_extension_for_language l = Some e -> language_for_file ("." ++ str_drop 1 e) <> None.
Proof.
  intros H. apply i_extension_cases in H.
  repeat destruct H as [H|H]; destruct H as [-> ->]; vm_compute; discriminate.
Qed.

(** X2. process_args reaches [args_add(args, NULL)] only when
    [CCACHE_EXTENSION] is set to an extension [e] such that
    language_for_file knows no language for a dot followed by [e]: with the
    extension the languages table gives, the call always has a language. *)
Theorem process_args_crash_needs_extension grp cwd bd stat env argv0 args ed eu cp :
  process_args grp cwd bd stat env argv0 args ed eu cp = PACrashed ->
  exists e, env = Some e /\ language_for_file ("." ++ e) = None.
Proof.
  intros H; cbv beta zeta delta [process_args] in H.
  destruct (pa_loop grp cwd bd stat argv0 1 args _) as [st1|] eqn:Hl; [|discriminate H].
  cbv beta iota in H.
  repeat head_destruct H; try discriminate H.
  all: first
    [ eexists; split; [reflexivity | eassumption]
    | exfalso; match goal with
      | H1 : i_extension_for_language ?l = Some ?e,
        H2 : language_for_file ("." ++ str_drop 1 ?e) = None |- _ =>
        exact (i_extension_roundtrip l e H1 H2)
      | H1 : i_extension_for_language ?l = None,
        H2 : language_is_supported ?l = true |- _ =>
        unfold language_is_supported in H2; rewrite H1 in H2; discriminate H2
      end ].
Qed.

Lemma process_args_crash_needs_extension_witness :
  process_args (fun _ _ : string => "rel") "/" None
    (fun p => if streq p "foo.c" then Some true else None) (Some "foo")
    "gcc" ["-x"; "c"; "-c"; "foo.c"] true true true = PACrashed
  /\ exists e, Some "foo" = Some e /\ language_for_file ("." ++ e) = None.
Proof.
  split; [vm_compute; reflexivity |].
  apply (process_args_crash_needs_extension (fun _ _ : string => "rel") "/" None
    (fun p => if streq p "foo.c" then Some true else None) (Some "foo")
    "gcc" ["-x"; "c"; "-c"; "foo.c"] true true true).
  vm_compute; reflexivity.
Defined.

Lemma substring_app s : forall p a b,
  String.substring p a s ++ String.substring (p + a) b s = String.substring p (a + b) s.
Proof.
  induction s as [|c s IH]; intros p a b.
  - destruct p, a, b; reflexivity.
  - destruct p as [|p].
    + destruct a as [|a]; [reflexivity |].
      cbn. change (String c (String.substring 0 a s ++ String.substring a b s)
                = String c (String.substring 0 (a + b) s)).
      f_equal. apply (IH 0 a b).
    + cbn. apply IH.
Qed.

Lemma substring_all s : String.substring 0 (String.length s) s = s.
Proof. induction s as [|c s IH]; [reflexivity | cbn; f_equal; exact IH]. Qed.

Lemma get_some_lt s : forall q c, String.get q s = Some c -> (q < String.length s)%nat.
Proof.
  induction s as [|c0 s IH]; intros q c H; [discriminate H |].
  destruct q; cbn in *; [lia | apply IH in H; lia].
Qed.

Lemma skip_to_quote_bounds data fuel : forall q,
  (q <= String.length data)%nat ->
  (q <= skip_to_quote data q fuel <= String.length data)%nat.
Proof.
  induction fuel as [|fuel IH]; intros q Hq; cbn; [lia |].
  destruct (String.get q data) as [c|] eqn:E; [| lia].
  destruct (Ascii.eqb c "034"%char); [lia |].
  apply get_some_lt in E. specialize (IH (S q) ltac:(lia)). lia.
Qed.

Lemma skip_to_quote_ge data fuel : forall q, (q <= skip_to_quote data q fuel)%nat.
Proof.
  induction fuel as [|fuel IH]; intros q; cbn; [lia |].
  destruct (String.get q data); [| lia].
  destruct (Ascii.eqb _ _); [lia |]. specialize (IH (S q)). lia.
Qed.

Lemma concat_empty_cons a l : String.concat "" (a :: l) = a ++ String.concat "" l.
Proof. destruct l; cbn; [symmetry; apply str_app_nil_r | reflexivity]. Qed.

Lemma str_app_assoc a b c : a ++ (b ++ c) = (a ++ b) ++ c.
Proof.
  induction a as [|x a IH]; [reflexivity |].
  change (String x (a ++ (b ++ c)) = String x ((a ++ b) ++ c)). f_equal. exact IH.
Qed.

Lemma x_strndup_id s : has_char "000"%char s = false -> x_strndup s = s.
Proof.
  induction s as [|c s IH]; intros H; [reflexivity |].
  unfold has_char in H. cbn [list_ascii_of_string existsb] in H.
  apply orb_false_iff in H as [H1 H2].
  cbn [x_strndup]. rewrite Ascii.eqb_sym, H1. f_equal. apply IH, H2.
Qed.
Lemma has_char_substring c s : forall p n,
  has_char c s = false -> has_char c (String.substring p n s) = false.
Proof.
  induction s as [|c0 s IH]; intros p n H; [destruct p, n; reflexivity |].
  unfold has_char in H. cbn [list_ascii_of_string existsb] in H.
  apply orb_false_iff in H as [H1 H2].
  destruct p as [|p]; [destruct n as [|n] |]; cbn [String.substring].
  - reflexivity.
  - unfold has_char in IH |- *. cbn [list_ascii_of_string existsb]. rewrite H1. apply IH, H2.
  - apply IH, H2.
Qed.

Lemma pp_loop_text grp cwd input t sl si hs data fuel : forall p q s l,
  has_char "000"%char data = false ->
  (p <= q)%nat -> (p <= String.length data)%nat ->
  scan_hash (pp_loop grp cwd None input t sl si hs fuel data p q s) = Some l ->
  String.concat "" (map item_text l)
  = String.substring p (String.length data - p) data.
Proof.
  induction fuel as [|fuel IH]; intros p q s l Hnul Hpq Hp H; cbn [pp_loop] in H.
  - cbn in H. injection H as <-. reflexivity.
  - destruct (q <? String.length data - 7)%nat eqn:Hlt; [| cbn in H; injection H as <-; reflexivity].
    destruct (is_line_marker data q); [| exact (IH p (S q) s l Hnul ltac:(lia) Hp H)].
    pose proof (skip_to_quote_ge data (String.length data) q) as Hq1.
    destruct (String.length data <=? S (skip_to_quote data q (String.length data)))%nat eqn:Hsz;
      [discriminate H |].
    apply Nat.leb_gt in Hsz.
    set (q1 := S (skip_to_quote data q (String.length data))) in *.
    pose proof (skip_to_quote_bounds data (String.length data) q1 ltac:(lia)) as Hq2.
    set (q2 := skip_to_quote data q1 (String.length data)) in *.
    cbn [scan_hash] in H.
    match type of H with
    | option_map _ (scan_hash ?r) = _ => destruct (scan_hash r) as [l0|] eqn:E; [| discriminate H]
    end.
    injection H as <-.
    apply IH in E; [| exact Hnul | lia | lia].
    cbn [map item_text make_relative_path]. rewrite !concat_empty_cons, E.
    rewrite x_strndup_id by (apply has_char_substring, Hnul).
    rewrite str_app_assoc.
    replace q1 with (p + (q1 - p))%nat at 2 by lia.
    rewrite substring_app.
    replace q2 with (p + ((q1 - p) + (q2 - q1)))%nat at 2 by lia.
    rewrite substring_app. f_equal. lia.
Qed.

(** X3. With [CCACHE_BASEDIR] unset and no NUL byte in the preprocessed
    output, when process_preprocessed_file succeeds, the buffers and
    include paths it feeds to the hash, concatenated in order, are exactly
    the preprocessed output: no byte is dropped or repeated.  (A NUL byte
    inside a quoted path would end the copy made by x_strndup.) *)
Theorem process_preprocessed_file_hashes_all grp cwd input t sl si hs data s l :
  has_char "000"%char data = false ->
  scan_hash (process_preprocessed_file grp cwd None input t sl si hs (Some data) s) = Some l ->
  String.concat "" (map item_text l) = data.
Proof.
  intros Hnul H. cbn [process_preprocessed_file] in H.
  apply pp_loop_text in H; [| exact Hnul | lia | lia].
  rewrite H, Nat.sub_0_r. apply substring_all.
Qed.

Lemma recorded_ok_app input s acc x :
  recorded_ok input s acc -> recorded_ok input s (acc ++ x).
Proof.
  intros H m Hm k Hk. destruct (H m Hm k Hk) as [Hne (len & Hin & Hb)].
  split; [exact Hne | exists len; split; [apply in_or_app; left; exact Hin | exact Hb]].
Qed.

Lemma remember_include_file_recorded input t sl si hs path len s acc :
  recorded_ok input s acc ->
  recorded_ok input (remember_include_file input t sl si hs path len s) (acc ++ [(path, len)]).
Proof.
  intros H. unfold remember_include_file.
  destruct (included_files s) as [m|] eqn:Ei; [| apply recorded_ok_app, H].
  destruct (is_bracketed path len) eqn:Eb; [apply recorded_ok_app, H |].
  destruct (streq path input) eqn:Es; [apply recorded_ok_app, H |].
  destruct (m !! path) eqn:Em; [apply recorded_ok_app, H |].
  assert (Hd : recorded_ok input (disable_direct s) (acc ++ [(path, len)]))
    by (apply recorded_ok_app; intros m' Hm'; apply H; exact Hm').
  destruct (si path) as [st|]; [| exact Hd].
  destruct (st_is_dir st); [apply recorded_ok_app, H |].
  destruct (_ && _)%bool; [exact Hd |].
  destruct (_ && _)%bool; [exact Hd |].
  destruct (hs _ path) as [result h].
  destruct (_ || _)%bool; [exact Hd |].
  intros m' Hm' k Hk. cbn in Hm'. injection Hm' as <-.
  destruct (decide (k = path)) as [->|Hne].
  - split; [intros ->; rewrite String.eqb_refl in Es; discriminate Es |].
    exists len. split; [apply in_or_app; right; left; reflexivity | exact Eb].
  - rewrite lookup_insert_ne in Hk by congruence.
    destruct (H m Ei k Hk) as [Hn (len' & Hin & Hb')].
    split; [exact Hn | exists len'; split; [apply in_or_app; left; exact Hin | exact Hb']].
Qed.

Lemma pp_loop_recorded grp cwd bd input t sl si hs data fuel : forall p q s acc,
  recorded_ok input s acc ->
  let r := pp_loop grp cwd bd input t sl si hs fuel data p q s in
  recorded_ok input (scan_state r) (acc ++ scan_calls r).
Proof.
  induction fuel as [|fuel IH]; intros p q s acc H; cbn [pp_loop];
    [cbn; rewrite app_nil_r; exact H |].
  destruct (q <? String.length data - 7)%nat; [| cbn; rewrite app_nil_r; exact H].
  destruct (is_line_marker data q); [| apply IH, H].
  destruct (String.length data <=? _)%nat; [cbn; rewrite app_nil_r; exact H |].
  cbn [scan_state scan_calls]. rewrite app_assoc. apply IH.
  destruct (enable_direct s); [apply remember_include_file_recorded, H |].
  rewrite app_nil_r. exact H.
Qed.

Lemma pp_loop_direct_off grp cwd bd input t sl si hs data fuel : forall p q s,
  enable_direct s = false ->
  scan_state (pp_loop grp cwd bd input t sl si hs fuel data p q s) = s
  /\ scan_calls (pp_loop grp cwd bd input t sl si hs fuel data p q s) = [].
Proof.
  induction fuel as [|fuel IH]; intros p q s Hd; cbn [pp_loop]; [split; reflexivity |].
  destruct (q <? String.length data - 7)%nat; [| split; reflexivity].
  destruct (is_line_marker data q); [| apply IH, Hd].
  destruct (String.length data <=? _)%nat; [split; reflexivity |].
  rewrite Hd. cbn [scan_state scan_calls app]. apply IH, Hd.
Qed.

Lemma substring_length s : forall p n,
  (p + n <= String.length s)%nat -> String.length (String.substring p n s) = n.
Proof.
  induction s as [|c s IH]; intros p n H.
  - cbn in H. assert (n = 0%nat) as -> by lia. destruct p; reflexivity.
  - cbn in H. destruct p as [|p]; [destruct n as [|n] |]; cbn.
    + reflexivity.
    + f_equal. apply IH. lia.
    + apply IH. lia.
Qed.

Lemma pp_loop_calls_len grp cwd input t sl si hs data fuel : forall p q s k len,
  has_char "000"%char data = false ->
  In (k, len) (scan_calls (pp_loop grp cwd None input t sl si hs fuel data p q s)) ->
  len = String.length k.
Proof.
  induction fuel as [|fuel IH]; intros p q s k len Hnul Hin; cbn [pp_loop] in Hin;
    [destruct Hin |].
  destruct (q <? String.length data - 7)%nat; [| destruct Hin].
  destruct (is_line_marker data q); [| exact (IH _ _ _ _ _ Hnul Hin)].
  destruct (String.length data <=? S (skip_to_quote data q (String.length data)))%nat eqn:Hsz;
    [destruct Hin |].
  apply Nat.leb_gt in Hsz.
  set (q1 := S (skip_to_quote data q (String.length data))) in *.
  pose proof (skip_to_quote_bounds data (String.length data) q1 ltac:(lia)) as Hq2.
  set (q2 := skip_to_quote data q1 (String.length data)) in *.
  cbn [scan_calls] in Hin. apply in_app_or in Hin as [Hin | Hin];
    [| exact (IH _ _ _ _ _ Hnul Hin)].
  destruct (enable_direct s); [| destruct Hin].
  destruct Hin as [Hin | []]. injection Hin as <- <-.
  cbn [make_relative_path]. rewrite x_strndup_id by (apply has_char_substring, Hnul).
  rewrite substring_length by lia. reflexivity.
Qed.

(** X4. In direct mode, every file that process_preprocessed_file
    records in [included_files] is a path passed to remember_include_file
    by one of its line markers, is not the input file, and failed the
    bracket test [path_len >= 2 && path[0] == '<' && path[path_len - 1] == '>']
    that remember_include_file applies with the length [len] of the quoted
    span.  With [CCACHE_BASEDIR] unset and no NUL byte in the preprocessed
    output, [len] is the length of the recorded path itself, so the path is
    not a bracketed name such as [<built-in>]. *)
Theorem process_preprocessed_file_records grp cwd bd input t sl si hs data s :
  enable_direct s = true ->
  let r := process_preprocessed_file grp cwd bd input t sl si hs (Some data) s in
  forall m, included_files (scan_state r) = Some m -> forall k, m !! k <> None ->
    k <> input /\ exists len, In (k, len) (scan_calls r) /\ is_bracketed k len = false
      /\ (bd = None -> has_char "000"%char data = false -> len = String.length k).
Proof.
  intros Hd r m Hm k Hk.
  assert (Hrec : recorded_ok input (scan_state r) ([] ++ scan_calls r)).
  { unfold r, process_preprocessed_file. rewrite Hd.
    apply (pp_loop_recorded grp cwd bd input t sl si hs data _ 0 0 _ []).
    intros m' Hm' k' Hk'. cbn in Hm'. injection Hm' as <-.
    rewrite lookup_empty in Hk'. congruence. }
  destruct (Hrec m Hm k Hk) as [Hn (len & Hin & Hb)].
  split; [exact Hn |]. exists len. split; [exact Hin |]. split; [exact Hb |].
  intros -> Hnul. revert Hin. unfold r, process_preprocessed_file. rewrite Hd.
  apply pp_loop_calls_len, Hnul.
Qed.

(** X5. With direct mode off, process_preprocessed_file leaves
    [enable_direct] and [included_files] unchanged and never calls
    remember_include_file. *)
Theorem process_preprocessed_file_direct_off grp cwd bd input t sl si hs contents s :
  enable_direct s = false ->
  scan_state (process_preprocessed_file grp cwd bd input t sl si hs contents s) = s
  /\ scan_calls (process_preprocessed_file grp cwd bd input t sl si hs contents s) = [].
Proof.
  intros Hd. destruct contents as [data|]; [| split; reflexivity].
  unfold process_preprocessed_file. rewrite Hd. apply pp_loop_direct_off, Hd.
Qed.

Lemma failed_halts cfg {A} w : fst (@failed cfg A w) = Halt (fallback_halt cfg).
Proof.
  unfold failed, cleanup_intermediates, mbind, gets, skip, mret, unlink, modify, halt_with.
  destruct (w_i_tmpfile w); [destruct (cfg_direct_i_file cfg) |]; cbn;
    destruct (w_cpp_stderr _); reflexivity.
Qed.

Lemma make_cache_levels_ok cfg os name w n : forall i path,
  (forall k, (k < n)%nat -> os_create_dir_ok os (path ++ cache_levels name i (S k)) = true) ->
  make_cache_levels cfg os name i n path w = (Ret (path ++ cache_levels name i n), w).
Proof.
  induction n as [|n IH]; intros i path Hok; cbn [make_cache_levels].
  - cbn. rewrite str_app_nil_r. reflexivity.
  - pose proof (Hok 0%nat ltac:(lia)) as H0. cbn [cache_levels] in H0.
    rewrite str_app_nil_r in H0. rewrite H0.
    rewrite IH.
    + cbn [cache_levels]. rewrite <- !str_app_assoc. reflexivity.
    + intros k Hk. specialize (Hok (S k) ltac:(lia)). cbn [cache_levels] in Hok |- *.
      repeat rewrite <- str_app_assoc. exact Hok.
Qed.

Lemma make_cache_levels_fail cfg os name w n : forall i path k,
  (k < n)%nat -> os_create_dir_ok os (path ++ cache_levels name i (S k)) = false ->
  fst (make_cache_levels cfg os name i n path w) = Halt (fallback_halt cfg).
Proof.
  induction n as [|n IH]; intros i path k Hk Hf; [lia |].
  cbn [make_cache_levels].
  destruct (os_create_dir_ok os (path ++ "/" ++ String (char_at name i) "")) eqn:E0.
  - destruct k as [|k].
    + cbn [cache_levels] in Hf. rewrite str_app_nil_r in Hf. congruence.
    + apply (IH (S i) _ k); [lia |].
      cbn [cache_levels] in Hf. repeat rewrite <- str_app_assoc. exact Hf.
  - apply failed_halts.
Qed.

(** X6. get_path_in_cache returns [cache_dir/c0/c1/.../rest suffix],
    one directory level per leading character of the name and the rest of
    the name after them, when every level directory can be created; if
    creating one of them fails, it falls back to the real compiler. *)
Theorem get_path_in_cache_path cfg os name suffix w :
  ((forall k, (k < cfg_nlevels cfg)%nat ->
      os_create_dir_ok os (cfg_cache_dir cfg ++ cache_levels name 0 (S k)) = true) ->
   get_path_in_cache cfg os name suffix w
   = (Ret (cfg_cache_dir cfg ++ cache_levels name 0 (cfg_nlevels cfg) ++ "/"
           ++ str_drop (cfg_nlevels cfg) name ++ suffix), w))
  /\ (forall k, (k < cfg_nlevels cfg)%nat ->
      os_create_dir_ok os (cfg_cache_dir cfg ++ cache_levels name 0 (S k)) = false ->
      fst (get_path_in_cache cfg os name suffix w) = Halt (fallback_halt cfg)).
Proof.
  split.
  - intros Hok. unfold get_path_in_cache, mbind.
    rewrite (make_cache_levels_ok cfg os name w _ 0 _ Hok).
    unfold mret. rewrite <- !str_app_assoc. reflexivity.
  - intros k Hk Hf. unfold get_path_in_cache, mbind.
    pose proof (make_cache_levels_fail cfg os name w _ 0 _ k Hk Hf) as H.
    destruct (make_cache_levels _ _ _ _ _ _ w) as [[a|h] w']; cbn in H |- *; congruence.
Qed.

(** X7. from_cache returns to its caller without changing anything
    (no file, no statistic, no effect) when [CCACHE_RECACHE] is set in the
    direct or preprocessor mode, when the cached object does not exist, or
    when a dependency file is needed in direct mode and the cached one
    does not exist. *)
Theorem from_cache_nothing_cached cfg os mode put w :
  ((negb (is_compiled_mode mode) && cfg_env_recache cfg) = true
   \/ w_fs w !! w_cached_obj w = None
   \/ ((cfg_generating_dependencies cfg && is_direct_mode mode) = true
       /\ w_fs w !! w_cached_dep w = None)) ->
  from_cache cfg os mode put w = (Ret tt, w).
Proof.
  intros H. unfold from_cache.
  destruct (negb (is_compiled_mode mode) && cfg_env_recache cfg) eqn:Hrc; [reflexivity |].
  cbv beta iota zeta delta [mbind gets file_exists mret skip].
  destruct H as [H | [H | [Hpd H]]]; [discriminate H | rewrite H; reflexivity |].
  destruct (w_fs w !! w_cached_obj w); cbv beta iota delta [negb]; [| reflexivity].
  rewrite Hpd. cbv beta iota delta [negb]. rewrite H. reflexivity.
Qed.

Lemma strtok_aux_app delims la lb : forall cur d,
  existsb (Ascii.eqb d) delims = true ->
  strtok_aux delims (la ++ d :: lb)%list cur = (strtok_aux delims la cur ++ strtok_aux delims lb [])%list.
Proof.
  induction la as [|c la IH]; intros cur d Hd; cbn [app strtok_aux].
  - rewrite Hd. reflexivity.
  - destruct (existsb (Ascii.eqb c) delims).
    + rewrite (IH [] d Hd), app_assoc. reflexivity.
    + apply IH, Hd.
Qed.

Lemma sloppiness_word_lor r w : sloppiness_word r w = Z.lor r (sloppiness_word 0 w).
Proof.
  unfold sloppiness_word.
  destruct (streq w "file_macro"), (streq w "include_file_mtime"), (streq w "time_macros");
    rewrite ?Z.lor_0_l, ?Z.lor_assoc, ?Z.lor_0_r; reflexivity.
Qed.

Lemma fold_sloppiness_lor ws : forall r,
  fold_left sloppiness_word ws r = Z.lor r (fold_left sloppiness_word ws 0%Z).
Proof.
  induction ws as [|w ws IH]; intros r; cbn [fold_left]; [rewrite Z.lor_0_r; reflexivity |].
  rewrite (IH (sloppiness_word r w)), (IH (sloppiness_word 0 w)), sloppiness_word_lor.
  rewrite Z.lor_assoc. reflexivity.
Qed.

(** X8. parse_sloppiness of two comma-joined lists is the bitwise or of
    the sloppiness of each list: the words are independent flags and their
    order does not matter. *)
Theorem parse_sloppiness_concat a b :
  parse_sloppiness (Some (a ++ "," ++ b))
  = Z.lor (parse_sloppiness (Some a)) (parse_sloppiness (Some b)).
Proof.
  unfold parse_sloppiness, strtok_all.
  assert (E : list_ascii_of_string (a ++ "," ++ b)
              = (list_ascii_of_string a ++ ","%char :: list_ascii_of_string b)%list).
  { induction a as [|c a IH]; [reflexivity |].
    change (c :: list_ascii_of_string (a ++ "," ++ b)
            = c :: (list_ascii_of_string a ++ ","%char :: list_ascii_of_string b)%list).
    f_equal. exact IH. }
  rewrite E, strtok_aux_app by reflexivity.
  rewrite fold_left_app, fold_sloppiness_lor. reflexivity.
Qed.


(** X9. Any value of [CCACHE_COMPILERCHECK] other than [none] and
    [content] (a misspelling included) hashes the compiler exactly as when
    the variable is unset, by size and mtime. *)
Theorem common_hash_compilercheck_other stat dir cwd extra hf argv0 iext v :
  v <> "none" -> v <> "content" ->
  calculate_common_hash stat (Some v) dir cwd extra hf argv0 iext
  = calculate_common_hash stat None dir cwd extra hf argv0 iext.
Proof.
  intros Hn Hc. unfold calculate_common_hash.
  apply String.eqb_neq in Hn, Hc. unfold streq. rewrite Hn, Hc. reflexivity.
Qed.

(** X10. With [CCACHE_COMPILERCHECK] set to [none] or [content], the
    size and mtime of the compiler do not enter the common hash: two stats
    of the compiler that both succeed give the same result. *)
Theorem common_hash_stat_ignored stat1 stat2 cc dir cwd extra hf argv0 iext :
  (cc = Some "none" \/ cc = Some "content") ->
  stat1 argv0 <> None -> stat2 argv0 <> None ->
  calculate_common_hash stat1 cc dir cwd extra hf argv0 iext
  = calculate_common_hash stat2 cc dir cwd extra hf argv0 iext.
Proof.
  intros Hcc H1 H2. unfold calculate_common_hash.
  destruct (stat1 argv0) as [[s1 m1]|]; [| congruence].
  destruct (stat2 argv0) as [[s2 m2]|]; [| congruence].
  destruct Hcc as [-> | ->]; reflexivity.
Qed.

Lemma hash_extra_files_none hf paths :
  hash_extra_files hf paths = None <-> exists p, In p paths /\ hf p = false.
Proof.
  induction paths as [|p ps IH]; cbn [hash_extra_files].
  - split; [discriminate | intros (p & [] & _)].
  - destruct (hf p) eqn:Ep.
    + destruct (hash_extra_files hf ps) eqn:E; cbn.
      * split; [discriminate |]. intros (q & [<- | Hq] & Hf); [congruence |].
        assert (Some l = None) by (apply IH; eauto). discriminate.
      * split; [intros _ | reflexivity].
        destruct (proj1 IH eq_refl) as (q & Hq & Hf). exists q. split; [right |]; assumption.
    + split; [intros _; exists p; split; [left |]; auto | reflexivity].
Qed.

Lemma hash_extra_files_some hf fs : forall hx,
  hash_extra_files hf fs = Some hx ->
  hx = flat_map (fun f => [HDelimiter "extrafile"; HFile f]) fs.
Proof.
  induction fs as [|f fs IH]; intros hx E; cbn in E |- *.
  - injection E as <-. reflexivity.
  - destruct (hf f); [| discriminate E].
    destruct (hash_extra_files hf fs) as [hx'|]; [| discriminate E].
    cbn in E. injection E as <-. rewrite (IH hx' eq_refl). reflexivity.
Qed.

(** X11. When the compiler can be stat'ed and [CCACHE_EXTRAFILES] is
    set, calculate_common_hash fails with
    [STATS_BADEXTRAFILE] exactly when one of its colon-separated paths
    cannot be hashed; otherwise the common hash ends with the delimiter
    [extrafile] and the file, for each path in order. *)
Theorem common_hash_extrafiles stat cc dir cwd hf argv0 iext p :
  stat argv0 <> None ->
  (calculate_common_hash stat cc dir cwd (Some p) hf argv0 iext = inl "STATS_BADEXTRAFILE"
   <-> exists f, In f (strtok_all ":" p) /\ hf f = false)
  /\ (forall l, calculate_common_hash stat cc dir cwd (Some p) hf argv0 iext = inr l ->
      exists l0, l = (l0 ++ flat_map (fun f => [HDelimiter "extrafile"; HFile f])
                                     (strtok_all ":" p))%list).
Proof.
  intros Hs. unfold calculate_common_hash.
  destruct (stat argv0) as [[size mtime]|]; [| congruence].
  split.
  - rewrite <- hash_extra_files_none.
    destruct (hash_extra_files hf (strtok_all ":" p)); split; congruence.
  - intros l Hl.
    destruct (hash_extra_files hf (strtok_all ":" p)) as [hx|] eqn:E; [| discriminate Hl].
    injection Hl as <-. rewrite (hash_extra_files_some hf _ hx E).
    lazymatch goal with
    | |- exists l0, ?L = (l0 ++ ?F)%list =>
      let rec strip t :=
        lazymatch t with
        | (?x ++ F)%list => x
        | ?a :: ?r => let r' := strip r in constr:(a :: r')
        | (?x ++ ?y)%list => let y' := strip y in constr:((x ++ y')%list)
        end in
      let l0 := strip L in exists l0; reflexivity
    end.
Qed.


(** X12. Invoked as [ccache /path/to/cc ...] with a compiler name that
    contains a slash, find_compiler takes that path as the compiler with
    the remaining arguments as they are, whatever [CCACHE_CC] says and
    without searching the PATH. *)
Theorem find_compiler_full_path myname cc fe argv0 argv1 rest :
  streq (basename argv0) myname = true -> has_char "/" argv1 = true ->
  find_compiler myname cc fe (argv0 :: argv1 :: rest) = FCOk (argv1 :: rest).
Proof. intros Hb Hs. cbn [find_compiler]. rewrite Hb, Hs. reflexivity. Qed.

(** X13. Invoked under another name (a symlink to ccache),
    find_compiler succeeds only with a compiler that [find_executable]
    found for [CCACHE_CC] or the invoked name, that differs from
    [argv[0]], and with the original arguments after it. *)
Theorem find_compiler_not_self myname cc fe argv0 rest compiler args :
  streq (basename argv0) myname = false ->
  find_compiler myname cc fe (argv0 :: rest) = FCOk (compiler :: args) ->
  compiler <> argv0 /\ args = rest
  /\ fe (match cc with Some p => p | None => basename argv0 end) myname = Some compiler.
Proof.
  intros Hb H. cbn [find_compiler] in H. rewrite Hb in H. cbv beta iota in H.
  destruct (fe _ myname) as [c|] eqn:E; [| discriminate H].
  destruct (streq c argv0) eqn:Es; [discriminate H |].
  injection H as <- <-. apply String.eqb_neq in Es. auto.
Qed.


(** X14. When main reaches the call of ccache(), the cache directory and
    the temporary directory were both created; the cache directory is
    [CCACHE_DIR] or [$HOME/.ccache]; the base directory is unset or the
    value of [CCACHE_BASEDIR], which starts with a slash. *)
Theorem main_compile_setup myname getenv home dup put cd_ok tag_ok argv0 args cache temp bd cpsc :
  main myname getenv home dup put cd_ok tag_ok argv0 args = MainCompile cache temp bd cpsc ->
  cd_ok cache = true /\ cd_ok temp = true
  /\ (getenv "CCACHE_DIR" = Some cache
      \/ getenv "CCACHE_DIR" = None /\ exists h, home = Some h /\ cache = h ++ "/.ccache")
  /\ (bd = None \/ getenv "CCACHE_BASEDIR" = bd /\ exists b, bd = Some b /\ char_at b 0 = "/"%char).
Proof.
  intros H. unfold main in H.
  destruct (streq (basename argv0) myname);
    [destruct args as [|a1 ?]; [discriminate H |];
     destruct (Ascii.eqb (char_at a1 0) "-"); [discriminate H |] |].
  all: destruct (getenv "CCACHE_DIR") as [d|] eqn:Ed;
    [| destruct home as [h|]; cbn [option_map] in H; [| discriminate H]].
  all: repeat match type of H with
    | (if ?b then _ else _) = _ => let E := fresh "E" in destruct b eqn:E; [try discriminate H |]
    end.
  all: injection H as <- <- <- <-.
  all: repeat match goal with E : (_ || _)%bool = false |- _ => apply orb_false_iff in E; destruct E end.
  all: repeat match goal with E : negb _ = false |- _ => apply negb_false_iff in E end.
  all: split; [assumption | split; [assumption | split]];
    [ first [left; reflexivity | right; split; [reflexivity | eexists; split; reflexivity]] |].
  all: destruct (getenv "CCACHE_BASEDIR") as [b|]; [| left; reflexivity].
  all: destruct (Ascii.eqb (char_at b 0) "/") eqn:Eb; [| left; reflexivity].
  all: right; split; [reflexivity | exists b; split; [reflexivity | apply Ascii.eqb_eq, Eb]].
Qed.


(** X15. Without a cache directory, ccache_main performs no cache
    operation (statistics, cleanup, wipe or limits), whatever the
    options. *)
Theorem ccache_main_no_cache_dir vt ut atoi vu fs fu ok opts :
  Forall (fun e => cm_touches_cache e = false)
    (fst (ccache_main vt ut atoi vu fs fu ok None opts)).
Proof.
  unfold ccache_main. destruct opts as [|[c a] rest]; cbn; [constructor|].
  repeat (destruct (Ascii.eqb c _); [cbn; repeat constructor|]).
  cbn; repeat constructor.
Qed.

(** The option loop on two sequences of options is the loop on the
    first one, followed by the loop on the second one only when the first
    one ended without calling exit. *)
Lemma ccache_main_loop_app vt ut atoi vu fs fu ok cd pre post :
  ccache_main_loop vt ut atoi vu fs fu ok cd (pre ++ post) =
  match ccache_main_loop vt ut atoi vu fs fu ok cd pre with
  | (evs, Some st) => (evs, Some st)
  | (evs, None) => let '(evs', st) := ccache_main_loop vt ut atoi vu fs fu ok cd post in
                   (evs ++ evs', st)%list
  end.
Proof.
  induction pre as [|[c a] pre IH]; cbn.
  - destruct (ccache_main_loop _ _ _ _ _ _ _ cd post); reflexivity.
  - rewrite IH.
    destruct (ccache_main_loop vt ut atoi vu fs fu ok cd pre) as [e1 [s1|]];
    destruct (ccache_main_loop vt ut atoi vu fs fu ok cd post) as [e2 s2];
    repeat (destruct (Ascii.eqb c _); cbn; try reflexivity);
    destruct cd; cbn; try reflexivity;
    repeat match goal with |- context [if ?b then _ else _] => destruct b end;
    rewrite ?app_assoc; reflexivity.
Qed.

(** X16. An option letter other than [V], [h], [s], [c], [C], [z], [F]
    and [M] (the [default] case of the switch) makes ccache_main print the
    usage text to stderr and exit with status 1: after the events of the
    options before it, when those ran without calling exit, and ignoring
    every option after it. *)
Theorem ccache_main_unknown_option vt ut atoi vu fs fu ok cd pre c a post evs :
  ccache_main_loop vt ut atoi vu fs fu ok cd pre = (evs, None) ->
  ~ In c ["V"; "h"; "s"; "c"; "C"; "z"; "F"; "M"]%char ->
  ccache_main vt ut atoi vu fs fu ok cd (pre ++ (c, a) :: post)
  = ((evs ++ [CMErr ut])%list, 1%Z).
Proof.
  intros Hpre Hc. unfold ccache_main.
  rewrite ccache_main_loop_app, Hpre. cbn [ccache_main_loop].
  repeat match goal with
  | |- context [Ascii.eqb c ?d] =>
      destruct (Ascii.eqb_spec c d) as [-> | _]; [exfalso; apply Hc; cbn; tauto |]
  end.
  reflexivity.
Qed.



(** X17. When to_cache returns to its caller, the compiler exited with
    status 0 and wrote nothing to stdout, the cached object holds a
    non-empty file (the compiler's output, or a leftover temporary object
    when the compiler wrote none), and the last event is the statistic
    [to cache].  The hypotheses keep the cached stderr and the cpp stderr
    out of the temporary names derived from the cached object path. *)
Theorem to_cache_stores_object cfg os args w
  (Hstderr : String.prefix (w_cached_obj w) (w_cached_stderr w) = false)
  (Hcpp : forall p, w_cpp_stderr w = Some p -> String.prefix (w_cached_obj w) p = false) :
  match to_cache cfg os args w with
  | (Ret _, w') =>
    exists err obj o,
      os_execute os (compile_argv cfg args (w_cached_obj w) (w_i_tmpfile w)) = (0%Z, "", err, obj)
      /\ (obj = Some o
          \/ obj = None /\ w_fs w !! (w_cached_obj w ++ ".tmp." ++ cfg_tmp_string cfg) = Some o)
      /\ o <> "" /\ w_fs w' !! w_cached_obj w = Some o
      /\ exists l, w_trace w' = (w_trace w ++ l ++ [EStats "to cache"])%list
  | (Halt _, _) => True
  end.
Proof.
  pose proof (Hcpp) as Hcpp'.
  unfold to_cache. cbn [mbind gets].
  destruct (os_execute os (compile_argv cfg args (w_cached_obj w) (w_i_tmpfile w)))
    as [[[status out] err] obj] eqn:Hexec.
  set (co := w_cached_obj w) in *. set (cs := w_cached_stderr w) in *.
  set (t := cfg_tmp_string cfg) in *.
  assert (Hlen : forall x, x <> ""%string -> co <> (co ++ x)%string).
  { intros x Hx E. apply (f_equal String.length) in E. rewrite str_length_app in E.
    destruct x; [congruence | simpl in E; lia]. }
  assert (N1 : co <> (co ++ ".tmp.stdout." ++ t)%string) by (apply Hlen; discriminate).
  assert (N2 : co <> (co ++ ".tmp.stderr." ++ t)%string) by (apply Hlen; discriminate).
  assert (N3 : co <> (co ++ ".tmp." ++ t)%string) by (apply Hlen; discriminate).
  assert (N4 : cs <> (co ++ ".tmp.stdout." ++ t)%string) by (apply not_prefix_ne; exact Hstderr).
  assert (N5 : cs <> (co ++ ".tmp.stderr." ++ t)%string) by (apply not_prefix_ne; exact Hstderr).
  assert (N6 : cs <> (co ++ ".tmp." ++ t)%string) by (apply not_prefix_ne; exact Hstderr).
  assert (N7 : (co ++ ".tmp.stdout." ++ t)%string <> (co ++ ".tmp.stderr." ++ t)%string).
  { intros E. apply str_app_cancel_l in E. discriminate. }
  assert (N8 : (co ++ ".tmp.stdout." ++ t)%string <> (co ++ ".tmp." ++ t)%string).
  { intros E. apply str_app_cancel_l, (f_equal String.length) in E.
    rewrite !str_length_app in E. simpl in E. lia. }
  assert (N9 : (co ++ ".tmp.stderr." ++ t)%string <> (co ++ ".tmp." ++ t)%string).
  { intros E. apply str_app_cancel_l, (f_equal String.length) in E.
    rewrite !str_length_app in E. simpl in E. lia. }
  set (so := (co ++ ".tmp.stdout." ++ t)%string) in *.
  set (se := (co ++ ".tmp.stderr." ++ t)%string) in *.
  set (to := (co ++ ".tmp." ++ t)%string) in *.
  assert (Hco : forall p, String.prefix co p = false -> p <> co).
  { intros p Hp ->. pose proof (prefix_app co EmptyString) as Hx. rewrite str_app_nil_r in Hx. congruence. }
  unfold failed, cleanup_intermediates, move_file.
  destruct (w_cpp_stderr w) as [p |] eqn:Ecpp;
    [assert (P1 : p <> so) by (apply not_prefix_ne; apply (Hcpp' p eq_refl));
     assert (P2 : p <> se) by (apply not_prefix_ne; apply (Hcpp' p eq_refl));
     assert (P3 : p <> to) by (apply not_prefix_ne; apply (Hcpp' p eq_refl));
     assert (P4 : p <> co) by exact (Hco p (Hcpp' p eq_refl)) |];
    destruct obj as [o |]; sym_exec ltac:(rewrite ?Ecpp).
  all: try exact I.
  all: try exact I.
  all: repeat match goal with
    | H : Some _ = Some _ |- _ => injection H as H; subst
    | H : (if (?x =? 0)%Z then false else true) = false |- _ =>
        destruct (Z.eqb_spec x 0); [subst | discriminate H]
    end.
  all: destruct out; [| discriminate Heqb].
  all: do 3 eexists; split; [reflexivity |];
    split; [first [left; reflexivity | right; split; [reflexivity | first [reflexivity | eassumption]]] |];
    split; [discriminate |]; split; [reflexivity |].
  all: eexists; rewrite (app_assoc (w_trace w));
    apply (f_equal (fun x => x ++ [EStats "to cache"])%list);
    rewrite <- !app_assoc; reflexivity.
Qed.

Lemma always_halts_bind {A B} (m : M A) (k : A -> M B) :
  (forall a, always_halts (k a)) -> always_halts (mbind m k).
Proof.
  intros Hk w. unfold mbind. destruct (m w) as [[a | h] w'].
  - apply Hk.
  - exists h; reflexivity.
Qed.

Lemma always_halts_halt {A} h : always_halts (@halt_with A h).
Proof. intros w. exists h. reflexivity. Qed.

Lemma always_halts_failed {A} cfg : always_halts (@failed cfg A).
Proof. apply always_halts_bind. intros _. apply always_halts_halt. Qed.

(** X18. The part of ccache() from the direct-mode lookup to the
    compile never returns to its caller: every path ends in exit or in
    the fallback to the real compiler, so the [return 1] after ccache()
    in main is not reached from there. *)
Theorem ccache_lookup_never_returns cfg os cd cc args w :
  exists h, fst (ccache_lookup cfg os cd cc args w) = Halt h.
Proof.
  revert w. unfold ccache_lookup.
  apply always_halts_bind; intros ed.
  apply always_halts_bind; intros [put hm].
  apply always_halts_bind; intros [oh |]; [| apply always_halts_halt].
  apply always_halts_bind; intros _.
  apply always_halts_bind; intros put'.
  apply always_halts_bind; intros _.
  unfold ccache_compile.
  destruct (cfg_env_readonly cfg); [apply always_halts_failed |].
  destruct (cfg_prefix_not_found cfg); [apply always_halts_halt |].
  apply always_halts_bind; intros _.
  apply always_halts_bind; intros _.
  apply always_halts_bind; intros _.
  apply always_halts_failed.
Qed.

(** X19. The argument hash of calculate_object_hash fails only on an
    argument [--specs=F] whose file [F] exists and cannot be hashed. *)
Theorem hash_args_loop_fails fe hf dm args :
  hash_args_loop fe hf dm args = None ->
  exists a, In a args /\ starts_with "--specs=" a = true
            /\ fe (str_drop 8 a) = true /\ hf (str_drop 8 a) = false.
Proof.
  remember (List.length args) as n eqn:En.
  assert (Hn : (List.length args <= n)%nat) by lia. clear En.
  revert args Hn. induction n as [|n IH]; intros args Hn H.
  { destruct args; [discriminate | simpl in Hn; lia]. }
  destruct args as [|a rest]; [discriminate |].
  cbn [hash_args_loop] in H. simpl in Hn.
  repeat match type of H with
  | (if ?b then _ else _) = None => destruct b eqn:?
  | match ?r with [] => _ | _ :: _ => _ end = None => destruct r eqn:?
  | option_map _ ?x = None => destruct x eqn:?; [discriminate H |]
  end.
  all: try discriminate H.
  all: subst.
  all: first
    [ exists a; split; [left; reflexivity |];
      repeat match goal with E : (_ && _)%bool = true |- _ => apply andb_true_iff in E; destruct E end;
      split; [assumption | split; assumption]
    | match goal with
      | E : hash_args_loop _ _ _ ?l = None |- _ =>
          destruct (IH l ltac:(simpl in *; lia) E) as (x & Hx & Hx2);
          exists x; split; [simpl in *; tauto | exact Hx2]
      end ].
Qed.

Lemma i_extension_language_preprocessed_witness :
  i_extension_for_language "c++" = Some ".ii"
  /\ match language_for_file ".ii" with
     | Some l' => language_is_preprocessed l' = true /\ i_extension_for_language l' = Some ".ii"
     | None => False
     end.
Proof.
  split; [reflexivity |].
  apply (i_extension_language_preprocessed "c++" ".ii"). reflexivity.
Defined.

Lemma process_preprocessed_file_hashes_all_witness :
  has_char "000"%char pp_sample = false /\ exists l,
    scan_hash (process_preprocessed_file (fun _ _ => "rel") "/" None "/src/main.c" 100 0
                 c2_stat c2_hash (Some pp_sample) {| enable_direct := true; included_files := None |})
    = Some l
    /\ String.concat "" (map item_text l) = pp_sample.
Proof.
  split; [vm_compute; reflexivity |].
  destruct (scan_hash (process_preprocessed_file (fun _ _ => "rel") "/" None "/src/main.c" 100 0
              c2_stat c2_hash (Some pp_sample) {| enable_direct := true; included_files := None |}))
    as [l |] eqn:E; [| vm_compute in E; discriminate E].
  exists l. split; [reflexivity |].
  exact (process_preprocessed_file_hashes_all (fun _ _ => "rel") "/" "/src/main.c" 100 0
           c2_stat c2_hash pp_sample _ l ltac:(vm_compute; reflexivity) E).
Defined.

Lemma process_preprocessed_file_records_witness :
  enable_direct {| enable_direct := true; included_files := None |} = true
  /\ let r := process_preprocessed_file (fun _ _ => "rel") "/" None "/src/main.c" 0 1
                c2_stat c2_hash (Some pp_sample) {| enable_direct := true; included_files := None |} in
     forall m, included_files (scan_state r) = Some m -> forall k, m !! k <> None ->
       k <> "/src/main.c" /\ exists len, In (k, len) (scan_calls r) /\ is_bracketed k len = false
         /\ (@None string = None -> has_char "000"%char pp_sample = false -> len = String.length k).
Proof.
  split; [reflexivity |].
  apply (process_preprocessed_file_records (fun _ _ => "rel") "/" None "/src/main.c" 0 1
           c2_stat c2_hash pp_sample {| enable_direct := true; included_files := None |}).
  reflexivity.
Defined.

Lemma process_preprocessed_file_direct_off_witness :
  enable_direct {| enable_direct := false; included_files := None |} = false
  /\ scan_state (process_preprocessed_file (fun _ _ => "rel") "/" None "/src/main.c" 0 1
       c2_stat c2_hash (Some pp_sample) {| enable_direct := false; included_files := None |})
     = {| enable_direct := false; included_files := None |}
  /\ scan_calls (process_preprocessed_file (fun _ _ => "rel") "/" None "/src/main.c" 0 1
       c2_stat c2_hash (Some pp_sample) {| enable_direct := false; included_files := None |})
     = [].
Proof.
  split; [reflexivity |].
  apply (process_preprocessed_file_direct_off (fun _ _ => "rel") "/" None "/src/main.c" 0 1
           c2_stat c2_hash (Some pp_sample)).
  reflexivity.
Defined.

Lemma get_path_in_cache_path_witness :
  get_path_in_cache cfg2 (os0 0 "" "") "abcdef" ".o" (world0 ∅ None)
  = (Ret (cfg_cache_dir cfg2 ++ cache_levels "abcdef" 0 (cfg_nlevels cfg2) ++ "/"
          ++ str_drop (cfg_nlevels cfg2) "abcdef" ++ ".o"), world0 ∅ None).
Proof.
  apply (proj1 (get_path_in_cache_path cfg2 (os0 0 "" "") "abcdef" ".o" (world0 ∅ None))).
  intros k Hk. reflexivity.
Defined.

Lemma from_cache_nothing_cached_witness :
  w_fs (world0 ∅ None) !! w_cached_obj (world0 ∅ None) = None
  /\ from_cache cfg0 (os0 0 "" "") FROMCACHE_DIRECT_MODE true (world0 ∅ None)
     = (Ret tt, world0 ∅ None).
Proof.
  split; [reflexivity |].
  apply from_cache_nothing_cached. right; left. reflexivity.
Defined.

Lemma common_hash_compilercheck_other_witness :
  calculate_common_hash (fun _ => Some (10, 20)%Z) (Some "mtim") false None None
    (fun _ => true) "/usr/bin/gcc" ".i"
  = calculate_common_hash (fun _ => Some (10, 20)%Z) None false None None
    (fun _ => true) "/usr/bin/gcc" ".i".
Proof.
  apply common_hash_compilercheck_other; discriminate.
Defined.

Lemma common_hash_stat_ignored_witness :
  calculate_common_hash (fun _ => Some (10, 20)%Z) (Some "content") false None None
    (fun _ => true) "/usr/bin/gcc" ".i"
  = calculate_common_hash (fun _ => Some (30, 40)%Z) (Some "content") false None None
    (fun _ => true) "/usr/bin/gcc" ".i".
Proof.
  apply common_hash_stat_ignored; [right; reflexivity | discriminate | discriminate].
Defined.

Lemma common_hash_extrafiles_witness :
  (calculate_common_hash (fun _ => Some (10, 20)%Z) None false None (Some "a.h:b.h")
     (fun f => streq f "a.h") "/usr/bin/gcc" ".i" = inl "STATS_BADEXTRAFILE"
   <-> exists f, In f (strtok_all ":" "a.h:b.h") /\ streq f "a.h" = false)
  /\ (forall l, calculate_common_hash (fun _ => Some (10, 20)%Z) None false None (Some "a.h:b.h")
                  (fun f => streq f "a.h") "/usr/bin/gcc" ".i" = inr l ->
      exists l0, l = (l0 ++ flat_map (fun f => [HDelimiter "extrafile"; HFile f])
                                     (strtok_all ":" "a.h:b.h"))%list).
Proof.
  apply common_hash_extrafiles. discriminate.
Defined.

Lemma find_compiler_full_path_witness :
  streq (basename "/usr/bin/ccache") "ccache" = true
  /\ find_compiler "ccache" (Some "clang") (fun _ _ => None)
       ["/usr/bin/ccache"; "/opt/gcc/bin/gcc"; "-c"; "x.c"]
     = FCOk ["/opt/gcc/bin/gcc"; "-c"; "x.c"].
Proof.
  split; [vm_compute; reflexivity |].
  apply find_compiler_full_path; vm_compute; reflexivity.
Defined.

Lemma find_compiler_not_self_witness :
  find_compiler "ccache" None (fun _ _ => Some "/usr/bin/gcc") ["/usr/lib/ccache/gcc"; "-c"; "x.c"]
  = FCOk ["/usr/bin/gcc"; "-c"; "x.c"]
  /\ "/usr/bin/gcc" <> "/usr/lib/ccache/gcc" /\ ["-c"; "x.c"] = ["-c"; "x.c"]
  /\ (fun _ _ : string => Some "/usr/bin/gcc") (basename "/usr/lib/ccache/gcc") "ccache"
     = Some "/usr/bin/gcc".
Proof.
  assert (H : find_compiler "ccache" None (fun _ _ => Some "/usr/bin/gcc")
                ["/usr/lib/ccache/gcc"; "-c"; "x.c"] = FCOk ["/usr/bin/gcc"; "-c"; "x.c"])
    by (vm_compute; reflexivity).
  split; [exact H |].
  exact (find_compiler_not_self "ccache" None (fun _ _ => Some "/usr/bin/gcc")
           "/usr/lib/ccache/gcc" ["-c"; "x.c"] "/usr/bin/gcc" ["-c"; "x.c"]
           ltac:(vm_compute; reflexivity) H).
Defined.

Lemma main_compile_setup_witness :
  let getenv := fun k => if streq k "CCACHE_BASEDIR" then Some "/src" else None in
  main "ccache" getenv (Some "/home/u") true true (fun _ => true) (fun _ => true)
    "gcc" ["-c"; "x.c"]
  = MainCompile "/home/u/.ccache" "/home/u/.ccache/tmp" (Some "/src") true
  /\ (fun _ : string => true) "/home/u/.ccache" = true
  /\ (fun _ : string => true) "/home/u/.ccache/tmp" = true
  /\ (getenv "CCACHE_DIR" = Some "/home/u/.ccache"
      \/ getenv "CCACHE_DIR" = None
         /\ exists h, Some "/home/u" = Some h /\ "/home/u/.ccache" = h ++ "/.ccache")
  /\ (Some "/src" = None
      \/ getenv "CCACHE_BASEDIR" = Some "/src"
         /\ exists b, Some "/src" = Some b /\ char_at b 0 = "/"%char).
Proof.
  intros getenv.
  assert (H : main "ccache" getenv (Some "/home/u") true true (fun _ => true) (fun _ => true)
                "gcc" ["-c"; "x.c"]
              = MainCompile "/home/u/.ccache" "/home/u/.ccache/tmp" (Some "/src") true)
    by (vm_compute; reflexivity).
  split; [exact H |].
  exact (main_compile_setup "ccache" getenv (Some "/home/u") true true (fun _ => true)
           (fun _ => true) "gcc" ["-c"; "x.c"] _ _ _ _ H).
Defined.

Lemma to_cache_stores_object_witness :
  String.prefix (w_cached_obj (world0 ∅ None)) (w_cached_stderr (world0 ∅ None)) = false
  /\ match to_cache cfg0 (os0 0 "" "") ["gcc"; "-c"] (world0 ∅ None) with
     | (Ret _, w') =>
       exists err obj o,
         os_execute (os0 0 "" "") (compile_argv cfg0 ["gcc"; "-c"] (w_cached_obj (world0 ∅ None))
                                     (w_i_tmpfile (world0 ∅ None))) = (0%Z, "", err, obj)
         /\ (obj = Some o
             \/ obj = None /\ w_fs (world0 ∅ None) !! (w_cached_obj (world0 ∅ None) ++ ".tmp."
                                                       ++ cfg_tmp_string cfg0) = Some o)
         /\ o <> "" /\ w_fs w' !! w_cached_obj (world0 ∅ None) = Some o
         /\ exists l, w_trace w' = (w_trace (world0 ∅ None) ++ l ++ [EStats "to cache"])%list
     | (Halt _, _) => True
     end.
Proof.
  split; [vm_compute; reflexivity |].
  apply to_cache_stores_object; [vm_compute; reflexivity |].
  intros p Hp. discriminate Hp.
Defined.

Lemma hash_args_loop_fails_witness :
  hash_args_loop (fun _ => true) (fun _ => false) true ["--specs=my.specs"; "-c"] = None
  /\ exists a, In a ["--specs=my.specs"; "-c"] /\ starts_with "--specs=" a = true
               /\ (fun _ : string => true) (str_drop 8 a) = true
               /\ (fun _ : string => false) (str_drop 8 a) = false.
Proof.
  assert (H : hash_args_loop (fun _ => true) (fun _ => false) true ["--specs=my.specs"; "-c"] = None)
    by reflexivity.
  split; [exact H |].
  exact (hash_args_loop_fails (fun _ => true) (fun _ => false) true _ H).
Defined.
(** X20. When every level directory can be created,
    update_cached_result_globals sets the cached object, stderr and
    dependency paths to one stem in the cache with the suffixes [.o],
    [.stderr] and [.d], records the hash, sets [stats_file] to
    [cache_dir/c/stats] where [c] is the first character of the hash
    string, and changes nothing else. *)
Theorem update_cached_result_globals_paths cfg os h w :
  let name := os_format_hash_as_string os h in
  let n := cfg_nlevels cfg in
  (forall k, (k < n)%nat ->
     os_create_dir_ok os (cfg_cache_dir cfg ++ cache_levels name 0 (S k)) = true) ->
  let stem := cfg_cache_dir cfg ++ cache_levels name 0 n ++ "/" ++ str_drop n name in
  update_cached_result_globals cfg os h w
  = (Ret tt, set_stats_file (cfg_cache_dir cfg ++ "/" ++ String (char_at name 0) "" ++ "/stats")
               (set_cached_result h (stem ++ ".o") (stem ++ ".stderr") (stem ++ ".d") w)).
Proof.
  intros name n Hok stem.
  unfold update_cached_result_globals, get_path_in_cache.
  fold name. fold n.
  cbv beta delta [mbind].
  repeat (rewrite (make_cache_levels_ok cfg os name w n 0 _ Hok); cbv beta iota zeta delta [mret]).
  unfold mret, modify, stem. rewrite <- !str_app_assoc. reflexivity.
Qed.

Lemma update_cached_result_globals_paths_witness :
  (forall k, (k < cfg_nlevels cfg2)%nat ->
     os_create_dir_ok (os0 0 "" "")
       (cfg_cache_dir cfg2 ++ cache_levels (os_format_hash_as_string (os0 0 "" "") hash_a) 0 (S k))
     = true)
  /\ update_cached_result_globals cfg2 (os0 0 "" "") hash_a (world0 ∅ None)
     = (Ret tt, set_stats_file "/cache/a/stats"
                  (set_cached_result hash_a "/cache/a/a/aa.o" "/cache/a/a/aa.stderr" "/cache/a/a/aa.d"
                     (world0 ∅ None))).
Proof.
  assert (Hok : forall k, (k < cfg_nlevels cfg2)%nat ->
     os_create_dir_ok (os0 0 "" "")
       (cfg_cache_dir cfg2 ++ cache_levels (os_format_hash_as_string (os0 0 "" "") hash_a) 0 (S k))
     = true) by (intros k Hk; reflexivity).
  split; [exact Hok |].
  exact (update_cached_result_globals_paths cfg2 (os0 0 "" "") hash_a (world0 ∅ None) Hok).
Defined.

Lemma ccache_main_unknown_option_witness :
  ccache_main_loop "v" "u" (fun _ => 0%Z) (fun _ => 0%Z) (fun _ => "") (fun _ => "")
    (fun _ _ => true) (Some "/cache") [("s"%char, "")] = ([CMStatsSummary], None)
  /\ ~ In "x"%char ["V"; "h"; "s"; "c"; "C"; "z"; "F"; "M"]%char
  /\ ccache_main "v" "u" (fun _ => 0%Z) (fun _ => 0%Z) (fun _ => "") (fun _ => "")
       (fun _ _ => true) (Some "/cache") ([("s"%char, "")] ++ ("x"%char, "") :: [("c"%char, "")])
     = ([CMStatsSummary; CMErr "u"], 1%Z).
Proof.
  assert (H1 : ccache_main_loop "v" "u" (fun _ => 0%Z) (fun _ => 0%Z) (fun _ => "") (fun _ => "")
    (fun _ _ => true) (Some "/cache") [("s"%char, "")] = ([CMStatsSummary], None)) by reflexivity.
  assert (H2 : ~ In "x"%char ["V"; "h"; "s"; "c"; "C"; "z"; "F"; "M"]%char)
    by (cbn; intuition discriminate).
  split; [exact H1 | split; [exact H2 |]].
  exact (ccache_main_unknown_option _ _ _ _ _ _ _ _ _ _ _ _ _ H1 H2).
Defined.
